(** * Puzelki: the board allocation engine and the bot control loop

    A shallow embedding of [board_state.py] (class [BoardState]) and of the
    worker-side methods of [bot_logic.py] (class [BotLogic]), with the
    properties of the allocation engine and of the control loop proved
    about the embedded definitions.

    Conventions of the embedding.
    - Python integers are [Z]; [//] is [Z.div] (both round towards minus
      infinity for a positive divisor).
    - Python lists are [list]; indexing follows Python: an index [i] with
      [-len <= i < 0] counts from the end, anything outside
      [-len <= i < len] raises [IndexError].
    - Python dicts keyed by block type are [gmap string _]; [d.get(k, v)] is
      [default v (d !! k)]; the set of used position ids is a [gset string].
    - A method of a class is a state transformer [M S A] on the object's
      fields: it returns a value together with the fields after the call, or
      an exception.  Nothing is said about the fields after an exception. *)

From Stdlib Require Import QArith Qround.
From stdpp Require Import base strings list gmap.

#[local] Set Warnings "-clear-no-such-hyp".
Open Scope Z_scope.

(** ** Results and the state-and-exception monad *)

Inductive exn : Type :=
  | IndexError.

(** The outcome of a call: a value, a Python exception, or [Blocked] for a
    worker that waits on another thread. *)
Inductive result (A : Type) : Type :=
  | Ok (a : A)
  | Raise (e : exn)
  | Blocked.
Arguments Ok {A} a.
Arguments Raise {A} e.
Arguments Blocked {A}.

Global Instance result_ret : MRet result := λ A a, Ok a.
Global Instance result_bind : MBind result := λ A B k r,
  match r with
  | Ok a => k a
  | Raise e => Raise e
  | Blocked => Blocked
  end.

(** A method: from the fields before the call to the returned value and the
    fields after it. *)
Definition M (S A : Type) : Type := S → result (A * S).

Global Instance M_ret {S} : MRet (M S) := λ A a s, Ok (a, s).
Global Instance M_bind {S} : MBind (M S) := λ A B k m s,
  m s ≫= λ p, k p.1 p.2.
Definition gets {S A} (f : S → A) : M S A := λ s, Ok (f s, s).
Definition modify {S} (f : S → S) : M S unit := λ s, Ok (tt, f s).
Definition lift_result {S A} (r : result A) : M S A :=
  λ s, r ≫= λ a, Ok (a, s).

(** ** Python list indexing *)

(** The position an index denotes in a list of length [n], if any. *)
Definition py_norm (n : nat) (i : Z) : option nat :=
  if bool_decide (0 ≤ i < Z.of_nat n) then Some (Z.to_nat i)
  else if bool_decide (- Z.of_nat n ≤ i < 0) then Some (Z.to_nat (Z.of_nat n + i))
  else None.

(** [l[i]] *)
Definition py_get {A} (l : list A) (i : Z) : result A :=
  match py_norm (length l) i ≫= (l !!.) with
  | Some x => Ok x
  | None => Raise IndexError
  end.

(** [l[i] = v] *)
Definition py_set {A} (l : list A) (i : Z) (v : A) : result (list A) :=
  match py_norm (length l) i with
  | Some k => Ok (<[k := v]> l)
  | None => Raise IndexError
  end.

(** ** The slot catalog and the configuration ([config.py]) *)

(** One entry of [BLOCK_POSITIONS]: a dict with the keys ['id'],
    ['center_col'], ['center_row'] and ['cells'].  The centre is a pair of
    decimal numbers that the code only hands on to the actuator. *)
Record position : Type := Position {
  id : string;
  center_col : Q;
  center_row : Q;
  cells : list (Z * Z)
}.

(** The constants that [board_state.py] and [bot_logic.py] import from
    [config.py].  The file is not part of the sources, so the constants are
    parameters of everything below. *)
Record config : Type := Config {
  BOARD_ROWS : Z;
  BOARD_COLS : Z;
  BLOCK_POSITIONS : gmap string (list position);
  BLOCK_LIMITS : gmap string Z;
  MAX_CHEST_RETRIES : Z
}.

(** ** BoardState *)

Abbreviation cell := (option string) (only parsing).
Abbreviation grid_t := (list (list (option string))) (only parsing).

Record BoardState : Type := mkBoardState {
  grid : grid_t;
  placed_counts : gmap string Z;
  used_positions : gset string
}.

Definition set_grid (g : grid_t) (b : BoardState) : BoardState :=
  mkBoardState g (placed_counts b) (used_positions b).
Definition set_placed_counts (pc : gmap string Z) (b : BoardState) : BoardState :=
  mkBoardState (grid b) pc (used_positions b).
Definition set_used_positions (u : gset string) (b : BoardState) : BoardState :=
  mkBoardState (grid b) (placed_counts b) u.

(** [grid[row][col]] *)
Definition cell_at (g : grid_t) (rc : Z * Z) : result cell :=
  row ← py_get g rc.1; py_get row rc.2.

(** [grid[row][col] = v] *)
Definition write_cell (g : grid_t) (rc : Z * Z) (v : cell) : result grid_t :=
  row ← py_get g rc.1;
  row' ← py_set row rc.2 v;
  py_set g rc.1 row'.

Section BoardState.
Variable cfg : config.

(** [[[None for _ in range(BOARD_COLS)] for _ in range(BOARD_ROWS)]] *)
Definition empty_grid : grid_t :=
  replicate (Z.to_nat (BOARD_ROWS cfg)) (replicate (Z.to_nat (BOARD_COLS cfg)) None).

(** [{block_type: 0 for block_type in BLOCK_LIMITS.keys()}] *)
Definition zero_counts : gmap string Z := (λ _, 0) <$> BLOCK_LIMITS cfg.

(** [BoardState.__init__] *)
Definition BoardState_init : BoardState :=
  {| grid := empty_grid; placed_counts := zero_counts; used_positions := ∅ |}.

(** [BoardState.reset] *)
Definition reset : M BoardState unit :=
  modify (set_grid empty_grid);;
  modify (set_placed_counts zero_counts);;
  modify (set_used_positions ∅).

(** [BLOCK_POSITIONS.get(block_type, [])] *)
Definition candidates (block_type : string) : list position :=
  default [] (BLOCK_POSITIONS cfg !! block_type).

(** [BLOCK_LIMITS.get(block_type, 0)] *)
Definition limit_of (block_type : string) : Z :=
  default 0 (BLOCK_LIMITS cfg !! block_type).

(** [BoardState.can_place_block] *)
Definition can_place_block (block_type : string) : M BoardState bool :=
  limit ← mret (limit_of block_type);
  current ← gets (λ b, default 0 (placed_counts b !! block_type));
  mret (bool_decide (current < limit)).

(** The inner loop of [get_next_position]: [all_free] after the loop over
    [pos['cells']], which stops at the first occupied cell. *)
Fixpoint all_free (g : grid_t) (cs : list (Z * Z)) : result bool :=
  match cs with
  | [] => Ok true
  | rc :: rest =>
      c ← cell_at g rc;
      match c with
      | Some _ => Ok false
      | None => all_free g rest
      end
  end.

(** The outer loop of [get_next_position] over the remaining positions. *)
Fixpoint scan_positions (b : BoardState) (ps : list position)
  : result (option position) :=
  match ps with
  | [] => Ok None
  | pos :: rest =>
      if bool_decide (id pos ∈ used_positions b) then scan_positions b rest
      else
        free ← all_free (grid b) (cells pos);
        if free : bool then Ok (Some pos) else scan_positions b rest
  end.

(** [BoardState.get_next_position] *)
Definition get_next_position (block_type : string)
  : M BoardState (option position) :=
  λ b, r ← scan_positions b (candidates block_type); Ok (r, b).

(** The loop of [mark_position_used] over [position['cells']]. *)
Fixpoint mark_cells (g : grid_t) (cs : list (Z * Z)) (block_type : string)
  : result grid_t :=
  match cs with
  | [] => Ok g
  | rc :: rest =>
      g' ← write_cell g rc (Some block_type);
      mark_cells g' rest block_type
  end.

(** [BoardState.mark_position_used] *)
Definition mark_position_used (block_type : string) (pos : position)
  : M BoardState unit :=
  g ← gets grid;
  g' ← lift_result (mark_cells g (cells pos) block_type);
  modify (set_grid g');;
  modify (λ b, set_placed_counts
    (<[block_type := default 0 (placed_counts b !! block_type) + 1]>
       (placed_counts b)) b);;
  modify (λ b, set_used_positions (used_positions b ∪ {[id pos]}) b).

(** The body of the counting loop of [update_from_scan]:
    [if cell is not None and cell in cell_counts: cell_counts[cell] += 1]. *)
Definition count_cell (cell_counts : gmap string Z) (c : cell)
  : gmap string Z :=
  match c with
  | Some bt =>
      match cell_counts !! bt with
      | Some n => <[bt := n + 1]> cell_counts
      | None => cell_counts
      end
  | None => cell_counts
  end.

Definition count_cells (g : grid_t) : gmap string Z :=
  foldl (λ cell_counts row, foldl count_cell cell_counts row) zero_counts g.

(** The [sizes] dict of [update_from_scan]. *)
Definition sizes : gmap string Z :=
  list_to_map [("CYAN", 4); ("BLUE", 3); ("RED", 4); ("GREEN", 3);
               ("YELLOW", 3); ("ORANGE", 1)].

(** [sizes.get(block_type, 1)] *)
Definition size_of (block_type : string) : Z :=
  default 1 (sizes !! block_type).

(** [BoardState.update_from_scan] *)
Definition update_from_scan (scanned_grid : grid_t) : M BoardState unit :=
  modify (set_grid ((λ row, row) <$> scanned_grid));;
  g ← gets grid;
  cell_counts ← mret (count_cells g);
  modify (λ b, set_placed_counts
    (map_fold (λ block_type n pc,
                 let size := size_of block_type in
                 <[block_type := (n + size - 1) `div` size]> pc)
              (placed_counts b) cell_counts) b).

(** [BoardState.get_total_placed]: [sum(self.placed_counts.values())] *)
Definition get_total_placed : M BoardState Z :=
  gets (λ b, map_fold (λ _ n acc, acc + n) 0 (placed_counts b)).


(** [BoardState.is_complete] *)
Definition is_complete : M BoardState bool :=
  total ← get_total_placed;
  mret (bool_decide (7 ≤ total)).

(** [BoardState.get_empty_count] *)
Definition get_empty_count : M BoardState Z :=
  gets (λ b,
    foldl (λ count row,
             foldl (λ count (c : cell),
                      match c with None => count + 1 | Some _ => count end)
                   count row)
          0 (grid b)).

End BoardState.

(** ** BotLogic: the worker loop

    The worker thread of [BotLogic] talks to collaborators that are not part
    of the allocation engine: the sequencer (mouse actions), the detector,
    the status callback and the chest-empty callback.  Each call to one of
    them is recorded, in order, in a trace; what the detector answers is read
    from a script of readings.  [time.sleep] only shows as an event, and
    [log], which prints in debug mode, is left out.

    The foreground thread that flips [is_paused] and [should_stop] is not
    part of the model: the definitions describe the worker between two
    interventions of the foreground. *)

Inductive BotState : Type :=
  | IDLE | RUNNING | PAUSED | FETCHING | DETECTING
  | PLACING | DISCARDING | COMPLETING | ERROR | STOPPED.

(** [BotState.value] *)
Definition BotState_value (st : BotState) : string :=
  match st with
  | IDLE => "Gotowy"
  | RUNNING => "Działa..."
  | PAUSED => "Pauza"
  | FETCHING => "Pobieram klocek..."
  | DETECTING => "Rozpoznaję..."
  | PLACING => "Kładę klocek..."
  | DISCARDING => "Odrzucam..."
  | COMPLETING => "Kończę planszę..."
  | ERROR => "Błąd!"
  | STOPPED => "Zatrzymany"
  end.

(** The [stats] dict; its four keys are fixed in [__init__]. *)
Record Stats : Type := mkStats {
  boards_completed : Z;
  blocks_placed : Z;
  blocks_discarded : Z;
  current_board_blocks : Z
}.

(** The argument of a [time.sleep]: an entry of [DELAYS] or a literal. *)
Inductive duration : Type :=
  | DELAYS (key : string)
  | Seconds (q : Q).

Inductive event : Type :=
  | Transition (st : BotState)              (* [self.state = st] *)
  | StatusCallback (text : string) (stats : Stats)
                                            (* [self.status_callback(text, self.stats)] *)
  | FetchNewBlock                           (* [sequencer.fetch_new_block()] *)
  | PlaceBlockAt (col row : Q)              (* [sequencer.place_block_at_position(col, row)] *)
  | DiscardCurrentBlock                     (* [sequencer.discard_current_block()] *)
  | ConfirmCompletion                       (* [sequencer.confirm_completion()] *)
  | DetectAtParking                         (* [detector.detect_block_at_position(parking)] *)
  | Sleep (d : duration)                    (* [time.sleep(d)] *)
  | ChestEmpty.                             (* [self.on_chest_empty()] *)

Global Instance BotState_eq_dec : EqDecision BotState.
Proof. solve_decision. Defined.

Record Bot : Type := mkBot {
  state : BotState;
  is_running : bool;
  is_paused : bool;
  should_stop : bool;
  stats : Stats;
  board : BoardState;
  (* whether a callback was given: [status_callback], [on_chest_empty] *)
  status_callback : bool;
  on_chest_empty : bool;
  (* what the detector will answer, call after call; nothing once exhausted *)
  readings : list (option string);
  (* the calls made so far, oldest first *)
  trace : list event
}.

Definition set_state (st : BotState) (s : Bot) : Bot :=
  mkBot st (is_running s) (is_paused s) (should_stop s) (stats s) (board s)
        (status_callback s) (on_chest_empty s) (readings s) (trace s).
Definition set_is_paused (v : bool) (s : Bot) : Bot :=
  mkBot (state s) (is_running s) v (should_stop s) (stats s) (board s)
        (status_callback s) (on_chest_empty s) (readings s) (trace s).
Definition set_stats (st : Stats) (s : Bot) : Bot :=
  mkBot (state s) (is_running s) (is_paused s) (should_stop s) st (board s)
        (status_callback s) (on_chest_empty s) (readings s) (trace s).
Definition set_board (b : BoardState) (s : Bot) : Bot :=
  mkBot (state s) (is_running s) (is_paused s) (should_stop s) (stats s) b
        (status_callback s) (on_chest_empty s) (readings s) (trace s).
Definition set_readings (r : list (option string)) (s : Bot) : Bot :=
  mkBot (state s) (is_running s) (is_paused s) (should_stop s) (stats s) (board s)
        (status_callback s) (on_chest_empty s) r (trace s).
Definition set_trace (t : list event) (s : Bot) : Bot :=
  mkBot (state s) (is_running s) (is_paused s) (should_stop s) (stats s) (board s)
        (status_callback s) (on_chest_empty s) (readings s) t.

Definition emit (e : event) : M Bot unit :=
  modify (λ s, set_trace (trace s ++ [e]) s).

(** A call of a [BoardState] method on [self.board]. *)
Definition on_board {A} (m : M BoardState A) : M Bot A :=
  λ s, p ← m (board s); Ok (p.1, set_board p.2 s).

(** [self.detector.detect_block_at_position(parking_x, parking_y)] *)
Definition detect : M Bot (option string) :=
  emit DetectAtParking;;
  rs ← gets readings;
  match rs with
  | [] => mret None
  | r :: rest => modify (set_readings rest);; mret r
  end.

(** What control does after the body of the [while] of [_main_loop]:
    go to the loop test again ([continue], or the end of the body), or leave
    the loop ([break]). *)
Inductive control : Type := Next | Break.

Section BotLogic.
Variable cfg : config.

(** [BotLogic.update_status] *)
Definition update_status (st : BotState) (message : option string)
  : M Bot unit :=
  modify (set_state st);;
  emit (Transition st);;
  status_text ← mret (default (BotState_value st) message);
  cb ← gets status_callback;
  if cb : bool then
    stats_now ← gets stats;
    emit (StatusCallback status_text stats_now)
  else mret tt.

(** [BotLogic._wait_while_paused]: the worker sleeps until the foreground
    clears [is_paused] or sets [should_stop]; while neither happens it does
    not come back. *)
Definition _wait_while_paused : M Bot unit :=
  λ s, if is_paused s && negb (should_stop s) then Blocked else Ok (tt, s).

(** The [while retries < MAX_CHEST_RETRIES] loop of [_fetch_block], with
    [n] iterations left; [Some t] is the [return block_type] inside the
    loop, [None] the end of the loop. *)
Fixpoint fetch_attempts (n : nat) : M Bot (option string) :=
  match n with
  | O => mret None
  | S n' =>
      emit FetchNewBlock;;
      emit (Sleep (DELAYS "detection_wait"));;
      update_status DETECTING None;;
      block_type ← detect;
      match block_type with
      | Some t => mret (Some t)
      | None =>
          emit (Sleep (DELAYS "retry_delay"));;
          fetch_attempts n'
      end
  end.

(** [BotLogic._fetch_block] *)
Definition _fetch_block : M Bot (option string) :=
  update_status FETCHING None;;
  r ← fetch_attempts (Z.to_nat (MAX_CHEST_RETRIES cfg));
  match r with
  | Some t => mret (Some t)
  | None =>
      cb ← gets on_chest_empty;
      (if cb : bool then emit ChestEmpty else mret tt);;
      mret None
  end.

Definition add_placed (s : Bot) : Bot :=
  let st := stats s in
  set_stats (mkStats (boards_completed st) (blocks_placed st + 1)
                     (blocks_discarded st) (current_board_blocks st + 1)) s.
Definition add_discarded (s : Bot) : Bot :=
  let st := stats s in
  set_stats (mkStats (boards_completed st) (blocks_placed st)
                     (blocks_discarded st + 1) (current_board_blocks st)) s.
Definition add_completed (s : Bot) : Bot :=
  let st := stats s in
  set_stats (mkStats (boards_completed st + 1) (blocks_placed st)
                     (blocks_discarded st) 0) s.

(** [BotLogic._place_block] *)
Definition _place_block (block_type : string) : M Bot bool :=
  ok ← on_board (can_place_block cfg block_type);
  if negb ok then mret false
  else
    position ← on_board (get_next_position cfg block_type);
    match position with
    | None => mret false
    | Some pos =>
        update_status PLACING
          (Some ("Kładę " +:+ block_type +:+ " na " +:+ id pos +:+ "..."));;
        emit (PlaceBlockAt (center_col pos) (center_row pos));;
        on_board (mark_position_used block_type pos);;
        modify add_placed;;
        mret true
    end.

(** [BotLogic._discard_block] *)
Definition _discard_block (block_type : string) : M Bot unit :=
  update_status DISCARDING (Some ("Odrzucam " +:+ block_type +:+ "..."));;
  emit DiscardCurrentBlock;;
  modify add_discarded.

(** [BotLogic._complete_board] *)
Definition _complete_board : M Bot unit :=
  update_status COMPLETING (Some "Plansza ukończona!");;
  emit (Sleep (Seconds 0.5));;
  emit ConfirmCompletion;;
  modify add_completed;;
  on_board (reset cfg);;
  emit (Sleep (Seconds 0.5)).

(** The body of the [while] loop of [BotLogic._main_loop]. *)
Definition loop_body : M Bot control :=
  _wait_while_paused;;
  stop ← gets should_stop;
  if stop : bool then mret Break
  else
    complete ← on_board is_complete;
    if complete : bool then _complete_board;; mret Next
    else
      block_type ← _fetch_block;
      match block_type with
      | None =>
          modify (set_is_paused true);;
          update_status PAUSED (Some "Wymień skrzynkę i naciśnij HOME");;
          mret Next
      | Some t =>
          (if bool_decide (t = "ORANGE") then _discard_block t
           else
             ok ← on_board (can_place_block cfg t);
             if ok : bool then
               placed ← _place_block t;
               if negb placed then _discard_block t else mret tt
             else _discard_block t);;
          emit (Sleep (Seconds 0.05));;
          mret Next
      end.

(** The first [n] passes of [while self.is_running and not self.should_stop]
    in [_main_loop]; [Break] when the loop was left within them. *)
Fixpoint main_loop_passes (n : nat) : M Bot control :=
  match n with
  | O => mret Next
  | S n' =>
      go ← gets (λ s, is_running s && negb (should_stop s));
      if negb go then mret Break
      else
        c ← loop_body;
        match c with
        | Break => mret Break
        | Next => main_loop_passes n'
        end
  end.

End BotLogic.

(** ** Notions used to state the properties *)

(** The index pair denotes a cell of the grid (no [IndexError]). *)
Definition in_grid (g : grid_t) (rc : Z * Z) : bool :=
  match cell_at g rc with
  | Ok _ => true
  | _ => false
  end.

(** All cells of the position lie in the grid. *)
Definition slot_in_grid (g : grid_t) (pos : position) : bool :=
  forallb (in_grid g) (cells pos).

(** All cells of all candidate positions of the type lie in the grid. *)
Definition slots_in_grid (cfg : config) (g : grid_t) (block_type : string) : bool :=
  forallb (slot_in_grid g) (candidates cfg block_type).

(** A slot is available: its identifier is not consumed and every one of its
    cells is empty. *)
Definition available (b : BoardState) (pos : position) : Prop :=
  (id pos ∉ used_positions b) ∧
  Forall (λ rc, cell_at (grid b) rc = Ok None) (cells pos).

(** [placed_counts.get(block_type, 0)] *)
Definition placed_count (b : BoardState) (block_type : string) : Z :=
  default 0 (placed_counts b !! block_type).

(** The lengths of the rows: what indexing depends on. *)
Definition shape (g : grid_t) : list nat := length <$> g.

(** [sum(d.values())] for a dict of counts. *)
Definition total (m : gmap string Z) : Z := map_fold (λ _ n acc, acc + n) 0 m.

(** A sequence of [mark_position_used] calls, in order. *)
Fixpoint commits (cs : list (string * position)) : M BoardState unit :=
  match cs with
  | [] => mret tt
  | c :: rest => mark_position_used c.1 c.2;; commits rest
  end.

(** How many of the commits are of the given type. *)
Definition commits_of (block_type : string) (cs : list (string * position)) : Z :=
  Z.of_nat (length (filter (λ c, c.1 = block_type) cs)).

(** The slot identifiers of the candidate list of a type. *)
Definition slot_ids (cfg : config) (block_type : string) : gset string :=
  list_to_set (id <$> candidates cfg block_type).

(** The number of slot identifiers of the type that are in the consumed set. *)
Definition consumed_count (cfg : config) (b : BoardState) (block_type : string) : Z :=
  Z.of_nat (size (used_positions b ∩ slot_ids cfg block_type)).

(** The invariant of the data model: for every type, the placed count is the
    number of consumed slot identifiers of that type. *)
Definition counts_match (cfg : config) (b : BoardState) : Prop :=
  ∀ T, placed_count b T = consumed_count cfg b T.

(** No slot identifier occurs in the candidate lists of two types. *)
Definition catalog_ids_distinct (cfg : config) : bool :=
  bool_decide
    (map_Forall (λ T1 l1,
       map_Forall (λ T2 l2,
         T1 = T2 ∨ Forall (λ p : position, id p ∉ (id <$> l2)) l1)
         (BLOCK_POSITIONS cfg))
       (BLOCK_POSITIONS cfg)).

(** The sum of the placed counts over all types that have one. *)
Definition sum_placed (b : BoardState) : Z :=
  foldr (λ T acc, placed_count b T + acc) 0 (elements (dom (placed_counts b))).

(** The number of cells of the raw grid labelled with the type. *)
Definition cells_labelled (g : grid_t) (block_type : string) : Z :=
  Z.of_nat (length (filter (λ c : cell, c = Some block_type) (concat g))).

(** The number of empty cells of a grid. *)
Definition cells_empty (g : grid_t) : Z :=
  Z.of_nat (length (filter (λ c : cell, c = None) (concat g))).

(** [ceil(k / s)], the least integer not below the quotient. *)
Definition ceil_quotient (k s : Z) : Z :=
  Qceiling (inject_Z k / inject_Z s).

(** *** Traces of the worker *)

Definition is_pause_transition (e : event) : bool :=
  match e with Transition PAUSED => true | _ => false end.
Definition is_chest_empty (e : event) : bool :=
  match e with ChestEmpty => true | _ => false end.
Definition is_place (e : event) : bool :=
  match e with PlaceBlockAt _ _ => true | _ => false end.
Definition is_discard (e : event) : bool :=
  match e with DiscardCurrentBlock => true | _ => false end.
Definition is_fetch (e : event) : bool :=
  match e with FetchNewBlock => true | _ => false end.
(** The status callback is told to replace the chest. *)
Definition is_pause_status (e : event) : bool :=
  match e with
  | StatusCallback text _ => String.eqb text "Wymień skrzynkę i naciśnij HOME"
  | _ => false
  end.

(** How many events of a kind a trace contains. *)
Fixpoint occurrences (p : event → bool) (evs : list event) : nat :=
  match evs with
  | [] => 0
  | e :: rest => (if p e then 1 else 0) + occurrences p rest
  end.

(** Events that are neither a transition to [PAUSED], nor the chest-empty
    callback, nor the status message of the pause, nor a placement, nor a
    discard. *)
Definition quiet (e : event) : bool :=
  negb (is_pause_transition e || is_chest_empty e || is_pause_status e
        || is_place e || is_discard e).

(** The readings of the detector while it classifies one block after
    another as ORANGE, the [i]-th one after [ks !! i] readings of nothing. *)
Definition orange_readings (ks : list nat) : list (option string) :=
  ks ≫= λ k, replicate k None ++ [Some "ORANGE"].

(** The detector finds nothing in any of the readings. *)
Definition nothing_detected (rs : list (option string)) : bool :=
  forallb (λ r : option string, match r with None => true | Some _ => false end) rs.

(** ** A sample configuration

    A configuration of the shape the documentation of the program describes:
    a 4 x 6 board, six block types of which ORANGE has limit 0, seven blocks
    on a full board, and positions named after their colour.  It is used to
    run the model on concrete boards. *)

Definition pos_R1 : position := Position "R1" 1.5 1.0 [(0, 0); (0, 1); (1, 0); (1, 1)].
Definition pos_R2 : position := Position "R2" 3.5 1.0 [(0, 2); (0, 3); (1, 2); (1, 3)].
Definition pos_C1 : position := Position "C1" 5.0 1.0 [(0, 4); (0, 5); (1, 4); (1, 5)].
Definition pos_B1 : position := Position "B1" 1.0 2.5 [(2, 0); (2, 1); (2, 2)].
Definition pos_G1 : position := Position "G1" 4.0 2.5 [(2, 3); (2, 4); (2, 5)].
Definition pos_Y1 : position := Position "Y1" 1.0 3.5 [(3, 0); (3, 1); (3, 2)].
Definition pos_Y2 : position := Position "Y2" 4.0 3.5 [(3, 3); (3, 4); (3, 5)].

Definition sample_positions : gmap string (list position) :=
  list_to_map [("RED", [pos_R1; pos_R2]); ("CYAN", [pos_C1]); ("BLUE", [pos_B1]);
               ("GREEN", [pos_G1]); ("YELLOW", [pos_Y1; pos_Y2])].

Definition sample_limits : gmap string Z :=
  list_to_map [("RED", 2); ("CYAN", 1); ("BLUE", 1); ("GREEN", 1);
               ("YELLOW", 2); ("ORANGE", 0)].

Definition sample_config : config :=
  {| BOARD_ROWS := 4; BOARD_COLS := 6;
     BLOCK_POSITIONS := sample_positions;
     BLOCK_LIMITS := sample_limits;
     MAX_CHEST_RETRIES := 3 |}.

(** The board a method leaves behind (the board itself after an exception). *)
Definition board_after {A} (m : M BoardState A) (b : BoardState) : BoardState :=
  match m b with
  | Ok (_, b') => b'
  | _ => b
  end.

Definition fresh_board : BoardState := BoardState_init sample_config.

(** The sample board with a RED block on slot R1. *)
Definition board_R1 : BoardState :=
  board_after (mark_position_used "RED" pos_R1) fresh_board.

(** The sample board after slot R1 was committed twice. *)
Definition board_R1_twice : BoardState :=
  board_after (mark_position_used "RED" pos_R1) board_R1.

(** A full board: one commit for each of the seven positions. *)
Definition seven_commits : list (string * position) :=
  [("RED", pos_R1); ("RED", pos_R2); ("CYAN", pos_C1); ("BLUE", pos_B1); ("GREEN", pos_G1);
   ("YELLOW", pos_Y1); ("YELLOW", pos_Y2)].

(** A scan with exactly five cells labelled BLUE. *)
Definition five_blue_grid : list (list (option string)) :=
  [[Some "RED"; Some "RED"; None; None; None; None];
   [Some "RED"; Some "RED"; None; None; None; None];
   [Some "BLUE"; Some "BLUE"; Some "BLUE"; None; None; None];
   [Some "BLUE"; Some "BLUE"; None; None; None; None]].

(** A bot on the sample board as [__init__] and [start] leave it, with or
    without callbacks, in front of the given readings. *)
Definition sample_bot (callbacks : bool) (rs : list (option string)) : Bot :=
  {| state := IDLE; is_running := true; is_paused := false;
     should_stop := false; stats := mkStats 0 0 0 0; board := fresh_board;
     status_callback := callbacks; on_chest_empty := callbacks;
     readings := rs; trace := [] |}.

(** The bot a method leaves behind. *)
Definition bot_after {A} (m : M Bot A) (s : Bot) : Bot :=
  match m s with
  | Ok (_, s') => s'
  | _ => s
  end.

(** ** BotLogic: the foreground methods and the whole loop

    What the calibrator and the board scanner answer is an argument of the
    method that asks them.  [start] stands for what it does to the fields;
    the thread it creates runs [_main_loop]. *)

Definition set_is_running (v : bool) (s : Bot) : Bot :=
  mkBot (state s) v (is_paused s) (should_stop s) (stats s) (board s)
        (status_callback s) (on_chest_empty s) (readings s) (trace s).
Definition set_should_stop (v : bool) (s : Bot) : Bot :=
  mkBot (state s) (is_running s) (is_paused s) v (stats s) (board s)
        (status_callback s) (on_chest_empty s) (readings s) (trace s).

Section BotControl.
Variable cfg : config.

(** [BotLogic.__init__], with or without a [status_callback], in front of
    the given readings. *)
Definition BotLogic_init (callback : bool) (rs : list (option string)) : Bot :=
  {| state := IDLE; is_running := false; is_paused := false;
     should_stop := false; stats := mkStats 0 0 0 0;
     board := BoardState_init cfg;
     status_callback := callback; on_chest_empty := false;
     readings := rs; trace := [] |}.

(** [BotLogic.initialize]; [loaded] and [valid] are the answers of
    [calibrator.load_calibration()] and [calibrator.is_valid()]. *)
Definition initialize (loaded valid : bool) : M Bot bool :=
  if negb loaded then
    update_status ERROR (Some "Brak kalibracji!");; mret false
  else if negb valid then
    update_status ERROR (Some "Kalibracja niepełna!");; mret false
  else
    on_board (reset cfg);;
    update_status IDLE (Some "Gotowy | HOME → Start");;
    mret true.

(** [BotLogic.start], up to the creation of the thread. *)
Definition start (loaded valid : bool) : M Bot unit :=
  running ← gets is_running;
  if running : bool then mret tt
  else
    ok ← initialize loaded valid;
    if negb ok then mret tt
    else
      modify (set_is_running true);;
      modify (set_is_paused false);;
      modify (set_should_stop false).

(** [BotLogic._scan_and_update_board]; [scanned] is the answer of
    [scanner.scan_board()]. *)
Definition _scan_and_update_board (scanned : grid_t) : M Bot unit :=
  on_board (update_from_scan cfg scanned).

(** [BotLogic.pause]; [scanned] is what the scanner answers if it is asked. *)
Definition pause (scanned : grid_t) : M Bot unit :=
  running ← gets is_running;
  if negb running then mret tt
  else
    modify (λ s, set_is_paused (negb (is_paused s)) s);;
    paused ← gets is_paused;
    if paused : bool then
      update_status PAUSED (Some "PAUZA - naciśnij HOME aby wznowić")
    else
      (update_status RUNNING (Some "Wznawiam...");;
       _scan_and_update_board scanned).

(** [BotLogic.stop] *)
Definition stop : M Bot unit :=
  modify (set_should_stop true);;
  modify (set_is_running false);;
  modify (set_is_paused false);;
  update_status STOPPED (Some "Zatrzymano").

(** The [while self.is_running and not self.should_stop] loop of
    [_main_loop]; [None] when [fuel] passes were not enough to see its end. *)
Fixpoint main_loop_while (fuel : nat) (s : Bot) : option (result (unit * Bot)) :=
  if is_running s && negb (should_stop s) then
    match fuel with
    | O => None
    | S fuel' =>
        match loop_body cfg s with
        | Ok (Break, s') => Some (Ok (tt, s'))
        | Ok (Next, s') => main_loop_while fuel' s'
        | Raise e => Some (Raise e)
        | Blocked => Some Blocked
        end
    end
  else Some (Ok (tt, s)).




End BotControl.

(** ** Further notions *)

(** The operations that change a board. *)
Inductive board_op : Type :=
  | OpReset
  | OpCommit (block_type : string) (pos : position)
  | OpScan (scanned : list (list (option string))).

Definition run_op (cfg : config) (o : board_op) : M BoardState unit :=
  match o with
  | OpReset => reset cfg
  | OpCommit block_type pos => mark_position_used block_type pos
  | OpScan scanned => update_from_scan cfg scanned
  end.

Fixpoint run_ops (cfg : config) (os : list board_op) : M BoardState unit :=
  match os with
  | [] => mret tt
  | o :: rest => run_op cfg o;; run_ops cfg rest
  end.

(** The row and column numbers, from 0, of the cell an index pair denotes. *)
Definition cell_index (g : grid_t) (rc : Z * Z) : option (nat * nat) :=
  i ← py_norm (length g) rc.1;
  row ← g !! i;
  j ← py_norm (length row) rc.2;
  Some (i, j).

(** The cells of all positions of the catalog lie in the grid. *)
Definition catalog_in_grid (cfg : config) (g : grid_t) : bool :=
  bool_decide
    (map_Forall (λ _ ps, forallb (slot_in_grid g) ps = true) (BLOCK_POSITIONS cfg)).

(** No type has more blocks placed than its limit allows. *)
Definition within_limits (cfg : config) (b : BoardState) : Prop :=
  ∀ T, placed_count b T ≤ Z.max 0 (limit_of cfg T).

(** No placed count is negative. *)
Definition counts_nonneg (b : BoardState) : Prop :=
  ∀ T, 0 ≤ placed_count b T.

Definition is_detect (e : event) : bool :=
  match e with DetectAtParking => true | _ => false end.
Definition is_confirm (e : event) : bool :=
  match e with ConfirmCompletion => true | _ => false end.
(** A call to the sequencer. *)
Definition is_action (e : event) : bool :=
  match e with
  | FetchNewBlock | PlaceBlockAt _ _ | DiscardCurrentBlock | ConfirmCompletion => true
  | _ => false
  end.

(** The first block that the detector reports within the first [n] readings. *)
Definition first_detected (n : nat) (rs : list (option string)) : option string :=
  head (omap (λ r : option string, r) (take n rs)).

(** The index pairs of the slot denote pairwise different cells of the grid. *)
Definition distinct_cells (g : grid_t) (pos : position) : bool :=
  bool_decide (NoDup (cell_index g <$> cells pos)).

(** What a pass of the loop does when the worker is neither paused nor
    stopped: it completes the board, finds the chest empty, discards the
    block it fetched, or places it on a slot. *)
Inductive pass_kind : Type :=
  | Completed
  | Starved
  | Discarded (t : string)
  | Placed (t : string) (pos : position).

(** The effect of a pass of each kind: from the board, the statistics and the
    readings before the pass to the board, the statistics and [is_paused]
    after it, with the calls [evs] it makes. *)
Definition pass_effect (cfg : config) (k : pass_kind)
    (bd : BoardState) (sts : Stats) (rd : list (option string))
    (bd' : BoardState) (sts' : Stats) (paused' : bool) (evs : list event) : Prop :=
  let n := Z.to_nat (MAX_CHEST_RETRIES cfg) in
  match k with
  | Completed =>
      7 ≤ total (placed_counts bd) ∧
      bd' = BoardState_init cfg ∧
      sts' = mkStats (boards_completed sts + 1) (blocks_placed sts)
                     (blocks_discarded sts) 0 ∧
      paused' = false ∧
      occurrences is_confirm evs = 1%nat ∧ occurrences is_fetch evs = 0%nat ∧
      occurrences is_place evs = 0%nat ∧ occurrences is_discard evs = 0%nat
  | Starved =>
      total (placed_counts bd) < 7 ∧
      first_detected n rd = None ∧
      bd' = bd ∧ sts' = sts ∧ paused' = true ∧
      occurrences is_confirm evs = 0%nat ∧ occurrences is_fetch evs = n ∧
      occurrences is_place evs = 0%nat ∧ occurrences is_discard evs = 0%nat
  | Discarded t =>
      total (placed_counts bd) < 7 ∧
      first_detected n rd = Some t ∧
      (t = "ORANGE" ∨ ¬ placed_count bd t < limit_of cfg t ∨
       scan_positions bd (candidates cfg t) = Ok None) ∧
      bd' = bd ∧
      sts' = mkStats (boards_completed sts) (blocks_placed sts)
                     (blocks_discarded sts + 1) (current_board_blocks sts) ∧
      paused' = false ∧
      occurrences is_confirm evs = 0%nat ∧ (1 ≤ occurrences is_fetch evs ≤ n)%nat ∧
      occurrences is_place evs = 0%nat ∧ occurrences is_discard evs = 1%nat
  | Placed t pos =>
      total (placed_counts bd) < 7 ∧
      first_detected n rd = Some t ∧
      t ≠ "ORANGE" ∧ placed_count bd t < limit_of cfg t ∧
      scan_positions bd (candidates cfg t) = Ok (Some pos) ∧
      mark_position_used t pos bd = Ok (tt, bd') ∧
      sts' = mkStats (boards_completed sts) (blocks_placed sts + 1)
                     (blocks_discarded sts) (current_board_blocks sts + 1) ∧
      paused' = false ∧
      occurrences is_confirm evs = 0%nat ∧ (1 ≤ occurrences is_fetch evs ≤ n)%nat ∧
      occurrences is_place evs = 1%nat ∧ occurrences is_discard evs = 0%nat
  end.

(** *** More sample boards *)

(** The sample board after a block of a type without a limit entry was
    committed on slot R1. *)
Definition board_purple : BoardState :=
  board_after (mark_position_used "PURPLE" pos_R1) fresh_board.

(** A scan of a surface with a single GREEN cell. *)
Definition one_green_grid : list (list (option string)) :=
  [[None; None; None; None; None; None];
   [None; None; None; None; None; None];
   [None; None; None; Some "GREEN"; None; None];
   [None; None; None; None; None; None]].

(** The sample board after a scan that returned no rows. *)
Definition board_no_rows : BoardState :=
  board_after (update_from_scan sample_config []) fresh_board.

(** An ORANGE commit, a rescan and a RED commit. *)
Definition sample_ops : list board_op :=
  [OpCommit "ORANGE" pos_R1; OpScan five_blue_grid; OpCommit "RED" pos_R2].

Definition board_sample_ops : BoardState :=
  board_after (run_ops sample_config sample_ops) fresh_board.

(** Unfolding the monad: a method applied to the fields reduces to a
    [match] on the results of the calls it makes. *)
Ltac run_method :=
  unfold mbind, mret, M_bind, M_ret, result_bind, result_ret,
         gets, modify, lift_result; simpl.

(** ** Properties of [get_next_position] *)

Section NextPosition.
Variable cfg : config.

Lemma all_free_true g cs :
  all_free g cs = Ok true → Forall (λ rc, cell_at g rc = Ok None) cs.
Proof.
  induction cs as [|rc cs IH]; simpl; [constructor|].
  destruct (cell_at g rc) as [[t|]| |] eqn:E; simpl; try discriminate.
  intros H. constructor; auto.
Qed.

Lemma all_free_false g cs :
  all_free g cs = Ok false → ¬ Forall (λ rc, cell_at g rc = Ok None) cs.
Proof.
  induction cs as [|rc cs IH]; simpl; [discriminate|].
  destruct (cell_at g rc) as [[t|]| |] eqn:E; simpl; try discriminate.
  - intros _ H. inversion H; congruence.
  - intros H1 H2. inversion H2; subst. by apply IH.
Qed.

Lemma all_free_total g cs :
  forallb (in_grid g) cs = true → ∃ f, all_free g cs = Ok f.
Proof.
  induction cs as [|rc cs IH]; simpl; [eauto|].
  intros [H1 H2]%andb_true_iff. unfold in_grid in H1.
  destruct (cell_at g rc) as [[t|]| |]; simpl; try discriminate; eauto.
Qed.

Lemma scan_positions_spec b ps :
  forallb (slot_in_grid (grid b)) ps = true →
  ∃ r, scan_positions b ps = Ok r ∧
    match r with
    | Some pos =>
        ∃ l1 l2, ps = l1 ++ pos :: l2 ∧
          Forall (λ p, ¬ available b p) l1 ∧ available b pos
    | None => Forall (λ p, ¬ available b p) ps
    end.
Proof.
  induction ps as [|pos ps IH]; simpl.
  - intros _. exists None. split; [done|constructor].
  - intros [Hpos Hps]%andb_true_iff.
    destruct (IH Hps) as (r & Hr & Hspec).
    assert (Hskip : ¬ available b pos →
      ∃ r', Ok r = Ok r' ∧
        match r' with
        | Some p' => ∃ l1 l2, pos :: ps = l1 ++ p' :: l2 ∧
            Forall (λ p, ¬ available b p) l1 ∧ available b p'
        | None => Forall (λ p, ¬ available b p) (pos :: ps)
        end).
    { intros Hna. exists r. split; [done|]. destruct r as [p'|].
      - destruct Hspec as (l1 & l2 & -> & Hl1 & Hp').
        exists (pos :: l1), l2. split; [done|]. split; [by constructor|done].
      - by constructor. }
    case_bool_decide as Hused.
    + rewrite Hr. apply Hskip. intros [Hn _]. done.
    + destruct (all_free_total _ _ Hpos) as [f Hf]. rewrite Hf. simpl.
      destruct f.
      * exists (Some pos). split; [done|]. exists [], ps.
        split; [done|]. split; [constructor|].
        split; [done|]. by apply all_free_true.
      * rewrite Hr. apply Hskip. intros [_ Hn].
        by apply all_free_false in Hf.
Qed.

(** C1. On a board whose grid contains the cells of the candidate slots of
    type [T], [get_next_position T] returns, without changing the board,
    the first slot of [T]'s candidate list that is available (identifier
    not consumed, all cells empty): every slot before it in the list is
    unavailable; it returns [None] exactly when no candidate is available.
    In particular a returned slot is never consumed and has no occupied
    cell. *)
Theorem get_next_position_first_fit (b : BoardState) (T : string) :
  slots_in_grid cfg (grid b) T = true →
  ∃ r, get_next_position cfg T b = Ok (r, b) ∧
    match r with
    | Some pos =>
        (∃ l1 l2, candidates cfg T = l1 ++ pos :: l2 ∧
           Forall (λ p, ¬ available b p) l1) ∧
        (id pos ∉ used_positions b) ∧
        (∀ rc, rc ∈ cells pos → cell_at (grid b) rc = Ok None)
    | None => ∀ p, p ∈ candidates cfg T → ¬ available b p
    end.
Proof.
  intros Hin. destruct (scan_positions_spec b _ Hin) as (r & Hr & Hspec).
  exists r. unfold get_next_position. rewrite Hr. split; [done|].
  destruct r as [pos|].
  - destruct Hspec as (l1 & l2 & Hl & Hl1 & Hu & Hc).
    split; [by exists l1, l2|]. split; [done|].
    by apply Forall_forall.
  - by apply Forall_forall.
Qed.

End NextPosition.

(** ** Python indexing and the grid *)

Lemma py_norm_lt n i k : py_norm n i = Some k → (k < n)%nat.
Proof.
  unfold py_norm. repeat case_bool_decide; intros [= <-]; lia.
Qed.

Lemma py_get_Ok {A} (l : list A) i x :
  py_get l i = Ok x ↔ ∃ k, py_norm (length l) i = Some k ∧ l !! k = Some x.
Proof.
  unfold py_get. destruct (py_norm (length l) i) as [k|]; simpl.
  - destruct (l !! k) as [y|] eqn:E.
    + split; [intros [= ->]; eauto|]. intros (k' & [= <-] & Hk). congruence.
    + split; [done|]. intros (k' & [= <-] & Hk). congruence.
  - split; [done|]. intros (k' & Hk & _). done.
Qed.

Lemma py_set_Ok {A} (l : list A) i v l' :
  py_set l i v = Ok l' ↔ ∃ k, py_norm (length l) i = Some k ∧ l' = <[k := v]> l.
Proof.
  unfold py_set. destruct (py_norm (length l) i) as [k|].
  - split; [intros [= <-]; eauto|]. intros (k' & [= <-] & ->). done.
  - split; [done|]. intros (k' & Hk & _). done.
Qed.

Lemma cell_at_Ok g rc x :
  cell_at g rc = Ok x ↔
  ∃ i j row, py_norm (length g) rc.1 = Some i ∧ g !! i = Some row ∧
             py_norm (length row) rc.2 = Some j ∧ row !! j = Some x.
Proof.
  unfold cell_at. split.
  - destruct (py_get g rc.1) as [row| |] eqn:E; simpl; try done.
    intros (j & Hj & Hx)%py_get_Ok. apply py_get_Ok in E as (i & Hi & Hrow).
    by exists i, j, row.
  - intros (i & j & row & Hi & Hrow & Hj & Hx).
    assert (py_get g rc.1 = Ok row) as -> by (apply py_get_Ok; eauto).
    simpl. apply py_get_Ok; eauto.
Qed.

Lemma write_cell_Ok g rc v g' :
  write_cell g rc v = Ok g' ↔
  ∃ i j row, py_norm (length g) rc.1 = Some i ∧ g !! i = Some row ∧
             py_norm (length row) rc.2 = Some j ∧
             g' = <[i := <[j := v]> row]> g.
Proof.
  unfold write_cell. split.
  - destruct (py_get g rc.1) as [row| |] eqn:E; simpl; try done.
    apply py_get_Ok in E as (i & Hi & Hrow).
    destruct (py_set row rc.2 v) as [row'| |] eqn:E'; simpl; try done.
    apply py_set_Ok in E' as (j & Hj & ->).
    intros (i' & Hi' & ->)%py_set_Ok. exists i, j, row.
    assert (i' = i) as -> by congruence. done.
  - intros (i & j & row & Hi & Hrow & Hj & ->).
    assert (py_get g rc.1 = Ok row) as -> by (apply py_get_Ok; eauto).
    simpl. assert (py_set row rc.2 v = Ok (<[j := v]> row)) as ->
      by (apply py_set_Ok; eauto).
    simpl. apply py_set_Ok; eauto.
Qed.

Lemma shape_lookup g g' i row :
  shape g = shape g' → g !! i = Some row →
  ∃ row', g' !! i = Some row' ∧ length row' = length row.
Proof.
  unfold shape. intros Hs Hrow.
  assert (H : (length <$> g') !! i = Some (length row))
    by (rewrite <- Hs, list_lookup_fmap, Hrow; done).
  rewrite list_lookup_fmap in H. destruct (g' !! i) as [row'|]; [|done].
  injection H as H. eauto.
Qed.

Lemma shape_length g g' : shape g = shape g' → length g = length g'.
Proof.
  unfold shape. intros H. apply (f_equal length) in H.
  by rewrite !length_fmap in H.
Qed.

Lemma in_grid_true g rc : in_grid g rc = true ↔ ∃ x, cell_at g rc = Ok x.
Proof.
  unfold in_grid. destruct (cell_at g rc); split; try done; eauto.
  - intros [x [=]].
  - intros [x [=]].
Qed.

Lemma in_grid_shape g g' rc :
  shape g = shape g' → in_grid g rc = true → in_grid g' rc = true.
Proof.
  intros Hs (x & (i & j & row & Hi & Hrow & Hj & Hx)%cell_at_Ok)%in_grid_true.
  destruct (shape_lookup _ _ _ _ Hs Hrow) as (row' & Hrow' & Hlen).
  destruct (lookup_lt_is_Some_2 row' j) as [y Hy].
  { rewrite Hlen. eapply lookup_lt_Some; eauto. }
  apply in_grid_true. exists y. apply cell_at_Ok. exists i, j, row'.
  rewrite <- (shape_length _ _ Hs), Hlen. done.
Qed.

Lemma write_cell_shape g rc v g' :
  write_cell g rc v = Ok g' → shape g' = shape g.
Proof.
  intros (i & j & row & Hi & Hrow & Hj & ->)%write_cell_Ok.
  unfold shape. rewrite list_fmap_insert, length_insert.
  apply list_insert_id. by rewrite list_lookup_fmap, Hrow.
Qed.

Lemma write_cell_total g rc v :
  in_grid g rc = true → ∃ g', write_cell g rc v = Ok g'.
Proof.
  intros (x & (i & j & row & Hi & Hrow & Hj & Hx)%cell_at_Ok)%in_grid_true.
  eexists. apply write_cell_Ok. by exists i, j, row.
Qed.

Lemma write_cell_same g rc v g' :
  write_cell g rc v = Ok g' → cell_at g' rc = Ok v.
Proof.
  intros (i & j & row & Hi & Hrow & Hj & ->)%write_cell_Ok.
  apply cell_at_Ok. exists i, j, (<[j := v]> row).
  rewrite !length_insert. repeat split; try done.
  - apply list_lookup_insert_eq. eapply lookup_lt_Some; eauto.
  - apply list_lookup_insert_eq. by apply py_norm_lt in Hj.
Qed.

Lemma write_cell_other g rc v g' rc' x :
  write_cell g rc v = Ok g' → cell_at g rc' = Ok x →
  cell_at g' rc' = Ok x ∨ cell_at g' rc' = Ok v.
Proof.
  intros (i & j & row & Hi & Hrow & Hj & ->)%write_cell_Ok.
  intros (i' & j' & row' & Hi' & Hrow' & Hj' & Hx)%cell_at_Ok.
  destruct (decide (i = i')) as [<-|Hii].
  - assert (row' = row) as -> by congruence.
    destruct (decide (j = j')) as [<-|Hjj].
    + right. apply cell_at_Ok. exists i, j, (<[j := v]> row).
      rewrite !length_insert. repeat split; try done.
      * apply list_lookup_insert_eq. eapply lookup_lt_Some; eauto.
      * apply list_lookup_insert_eq. by apply py_norm_lt in Hj.
    + left. apply cell_at_Ok. exists i, j', (<[j := v]> row).
      rewrite !length_insert. repeat split; try done.
      * apply list_lookup_insert_eq. eapply lookup_lt_Some; eauto.
      * by rewrite list_lookup_insert_ne.
  - left. apply cell_at_Ok. exists i', j', row'.
    rewrite length_insert. repeat split; try done.
    by rewrite list_lookup_insert_ne.
Qed.

Lemma mark_cells_spec g cs T :
  forallb (in_grid g) cs = true →
  ∃ g', mark_cells g cs T = Ok g' ∧ shape g' = shape g ∧
    (∀ rc, rc ∈ cs → cell_at g' rc = Ok (Some T)) ∧
    (∀ rc x, cell_at g rc = Ok x →
       cell_at g' rc = Ok x ∨ cell_at g' rc = Ok (Some T)).
Proof.
  revert g. induction cs as [|rc cs IH]; intros g; simpl.
  - intros _. exists g. repeat split; auto. intros rc H. inversion H.
  - intros [Hrc Hcs]%andb_true_iff.
    destruct (write_cell_total g rc (Some T) Hrc) as [g1 Hg1].
    rewrite Hg1. simpl.
    pose proof (write_cell_shape _ _ _ _ Hg1) as Hs1.
    destruct (IH g1) as (g' & Hg' & Hs & Hin & Hout).
    { apply forallb_forall. intros rc' Hrc'.
      eapply in_grid_shape; [symmetry; exact Hs1|].
      revert rc' Hrc'. by apply forallb_forall. }
    exists g'. split; [done|]. split; [congruence|]. split.
    + intros rc' [->|Hrc']%elem_of_cons; [|by apply Hin].
      destruct (Hout rc (Some T) (write_cell_same _ _ _ _ Hg1)); done.
    + intros rc' x Hx.
      destruct (write_cell_other _ _ _ _ _ _ Hg1 Hx) as [H|H];
        destruct (Hout _ _ H); auto.
Qed.

(** ** Properties of [mark_position_used] *)

Lemma mark_position_used_eq T pos b :
  mark_position_used T pos b =
  (g' ← mark_cells (grid b) (cells pos) T;
   Ok (tt, {| grid := g';
              placed_counts := <[T := placed_count b T + 1]> (placed_counts b);
              used_positions := used_positions b ∪ {[id pos]} |})).
Proof.
  unfold mark_position_used, placed_count. run_method.
  destruct (mark_cells (grid b) (cells pos) T); reflexivity.
Qed.

Lemma placed_count_insert_eq m u g T n :
  placed_count (mkBoardState g (<[T := n]> m) u) T = n.
Proof. unfold placed_count. simpl. by rewrite lookup_insert_eq. Qed.

Lemma placed_count_insert_ne m u g T T' n :
  T ≠ T' →
  placed_count (mkBoardState g (<[T := n]> m) u) T' = default 0 (m !! T').
Proof. intros H. unfold placed_count. simpl. by rewrite lookup_insert_ne. Qed.

(** C6. When the cells of slot [S] lie in the grid, [mark_position_used T S]
    returns normally; afterwards every cell listed by [S] holds [T] (so none
    is empty), the placed count of [T] is one more than before, the placed
    counts of the other types are as before, and the consumed set is the old
    one with the identifier of [S] added. *)
Theorem mark_position_used_effect (b : BoardState) (T : string) (S : position) :
  slot_in_grid (grid b) S = true →
  ∃ b', mark_position_used T S b = Ok (tt, b') ∧
    (∀ rc, rc ∈ cells S → cell_at (grid b') rc = Ok (Some T)) ∧
    (∀ rc, rc ∈ cells S → cell_at (grid b') rc ≠ Ok None) ∧
    placed_count b' T = placed_count b T + 1 ∧
    (∀ T', T' ≠ T → placed_count b' T' = placed_count b T') ∧
    used_positions b' = used_positions b ∪ {[id S]}.
Proof.
  intros Hin. rewrite mark_position_used_eq.
  destruct (mark_cells_spec (grid b) (cells S) T Hin) as (g' & -> & _ & Hc & _).
  simpl. eexists. split; [done|]. simpl. repeat split.
  - done.
  - intros rc Hrc. rewrite (Hc rc Hrc). done.
  - apply placed_count_insert_eq.
  - intros T' HT. by apply placed_count_insert_ne.
Qed.

Lemma mark_position_used_run T pos b :
  slot_in_grid (grid b) pos = true →
  ∃ g', shape g' = shape (grid b) ∧
    mark_position_used T pos b =
    Ok (tt, {| grid := g';
               placed_counts := <[T := placed_count b T + 1]> (placed_counts b);
               used_positions := used_positions b ∪ {[id pos]} |}).
Proof.
  intros Hin. rewrite mark_position_used_eq.
  destruct (mark_cells_spec (grid b) (cells pos) T Hin) as (g' & -> & Hs & _).
  by exists g'.
Qed.

(** ** The total of the placed counts *)

Lemma total_insert_fresh m T n :
  m !! T = None → total (<[T := n]> m) = total m + n.
Proof.
  intros H. unfold total. rewrite map_fold_insert_L; [done| |done].
  intros. lia.
Qed.

Lemma total_lookup m T n :
  m !! T = Some n → total m = total (delete T m) + n.
Proof.
  intros H. rewrite <- (insert_delete_id m T n H) at 1.
  apply total_insert_fresh, lookup_delete_eq.
Qed.

Lemma total_incr m T :
  total (<[T := default 0 (m !! T) + 1]> m) = total m + 1.
Proof.
  destruct (m !! T) as [n|] eqn:E; simpl.
  - rewrite <- insert_delete_eq, total_insert_fresh by apply lookup_delete_eq.
    rewrite (total_lookup m T n E). lia.
  - by rewrite total_insert_fresh.
Qed.

Lemma total_zero (m : gmap string Z) : total ((λ _, 0) <$> m) = 0.
Proof.
  unfold total. rewrite map_fold_fmap.
  apply (map_fold_weak_ind (λ r _, r = 0)); [done|].
  intros i x m' r _ ->. done.
Qed.

Lemma sum_placed_total b : sum_placed b = total (placed_counts b).
Proof.
  unfold sum_placed, placed_count. generalize (placed_counts b). clear b.
  intros m. induction m as [|T n m Hfresh IH] using map_ind.
  - by rewrite dom_empty_L, elements_empty.
  - rewrite total_insert_fresh by done. rewrite dom_insert_L.
    assert (Hnd : T ∉ dom m) by by apply not_elem_of_dom.
    rewrite (foldr_permutation (=) (λ T0 acc, default 0 (<[T:=n]> m !! T0) + acc) 0
               _ (T :: elements (dom m))).
    + simpl. rewrite lookup_insert_eq. simpl.
      rewrite <- IH.
      assert (Hext : ∀ l : list string, T ∉ l →
        foldr (λ T0 acc, default 0 (<[T:=n]> m !! T0) + acc) 0 l =
        foldr (λ T0 acc, default 0 (m !! T0) + acc) 0 l).
      { induction l as [|a l IHl]; [done|]. intros Hl. simpl.
        rewrite lookup_insert_ne by (intros ->; apply Hl; left).
        rewrite IHl; [done|]. intros H. apply Hl. by right. }
      rewrite Hext; [lia|]. by rewrite elem_of_elements.
    + intros. lia.
    + by apply elements_union_singleton.
Qed.

(** ** Sequences of commits *)

Lemma commits_of_cons T c cs :
  commits_of T (c :: cs) = (if decide (c.1 = T) then 1 else 0) + commits_of T cs.
Proof.
  unfold commits_of. rewrite filter_cons. case_decide; simpl; lia.
Qed.

Lemma commits_spec cs b :
  forallb (λ c, slot_in_grid (grid b) c.2) cs = true →
  ∃ b', commits cs b = Ok (tt, b') ∧
    shape (grid b') = shape (grid b) ∧
    (∀ T, placed_count b' T = placed_count b T + commits_of T cs) ∧
    total (placed_counts b') = total (placed_counts b) + Z.of_nat (length cs).
Proof.
  revert b. induction cs as [|[T pos] cs IH]; intros b.
  - intros _. exists b. split; [done|]. split; [done|]. split.
    + intros T. unfold commits_of. simpl. lia.
    + simpl. lia.
  - intros [Hpos Hcs]%andb_true_iff. simpl in Hpos.
    change (forallb (λ c : string * position, slot_in_grid (grid b) c.2) cs = true)
      in Hcs.
    destruct (mark_position_used_run T pos b Hpos) as (g' & Hs & Hrun).
    set (b1 := {| grid := g';
                  placed_counts := <[T := placed_count b T + 1]> (placed_counts b);
                  used_positions := used_positions b ∪ {[id pos]} |}) in *.
    destruct (IH b1) as (b' & Hb' & Hs' & Hcnt & Htot).
    { apply forallb_forall. intros c Hc. unfold slot_in_grid.
      apply forallb_forall. intros rc Hrc.
      apply (in_grid_shape (grid b)); [symmetry; exact Hs|].
      rewrite forallb_forall in Hcs. specialize (Hcs c Hc). cbv beta in Hcs.
      unfold slot_in_grid in Hcs. rewrite forallb_forall in Hcs. by apply Hcs. }
    exists b'. split.
    { simpl. run_method. rewrite Hrun. simpl. exact Hb'. }
    split; [by rewrite Hs'|]. split.
    + intros T'. rewrite Hcnt, commits_of_cons. simpl.
      case_decide as HT.
      * subst T'. unfold b1. rewrite placed_count_insert_eq. lia.
      * unfold b1. rewrite placed_count_insert_ne by done.
        unfold placed_count. lia.
    + rewrite Htot. unfold b1. simpl. unfold placed_count.
      rewrite total_incr. lia.
Qed.

(** ** Queries and [reset] *)

Section Queries.
Variable cfg : config.

Lemma reset_run b : reset cfg b = Ok (tt, BoardState_init cfg).
Proof. reflexivity. Qed.

Lemma can_place_block_run T b :
  can_place_block cfg T b =
  Ok (bool_decide (placed_count b T < limit_of cfg T), b).
Proof. reflexivity. Qed.

Lemma is_complete_run b :
  is_complete b = Ok (bool_decide (7 ≤ total (placed_counts b)), b).
Proof. reflexivity. Qed.

Lemma placed_count_init T : placed_count (BoardState_init cfg) T = 0.
Proof.
  unfold placed_count, BoardState_init, zero_counts. simpl.
  rewrite lookup_fmap. by destruct (BLOCK_LIMITS cfg !! T).
Qed.

Lemma reset_commits_run b cs :
  forallb (λ c, slot_in_grid (empty_grid cfg) c.2) cs = true →
  ∃ b', (reset cfg;; commits cs) b = Ok (tt, b') ∧
    (∀ T, placed_count b' T = commits_of T cs) ∧
    total (placed_counts b') = Z.of_nat (length cs).
Proof.
  intros Hin.
  destruct (commits_spec cs (BoardState_init cfg) Hin)
    as (b' & Hrun & _ & Hcnt & Htot).
  exists b'. split; [|split].
  - run_method. exact Hrun.
  - intros T. by rewrite Hcnt, placed_count_init.
  - rewrite Htot. simpl. unfold zero_counts. rewrite total_zero. lia.
Qed.

(** C5. [can_place_block T] answers whether the placed count of [T] is
    below the limit of [T] and leaves the board as it was.  Hence, on a
    board that was reset and then went through a sequence of commits whose
    slots lie in the grid, it answers [false] exactly when the number of
    commits of type [T] in the sequence has reached the limit of [T]. *)
Theorem can_place_block_quota (b : BoardState) (cs : list (string * position))
    (T : string) :
  forallb (λ c, slot_in_grid (empty_grid cfg) c.2) cs = true →
  can_place_block cfg T b
    = Ok (bool_decide (placed_count b T < limit_of cfg T), b) ∧
  ∃ b', (reset cfg;; commits cs) b = Ok (tt, b') ∧
    ∃ ok, can_place_block cfg T b' = Ok (ok, b') ∧
      (ok = false ↔ limit_of cfg T ≤ commits_of T cs).
Proof.
  intros Hin. split; [apply can_place_block_run|].
  destruct (reset_commits_run b cs Hin) as (b' & Hrun & Hcnt & _).
  exists b'. split; [done|]. eexists. split; [apply can_place_block_run|].
  rewrite Hcnt. case_bool_decide; split; try done; lia.
Qed.

(** C7. [is_complete] answers [true] exactly when the sum of the placed
    counts over all types is at least 7, and leaves the board as it was.
    On a board that was reset and then went through the first [n] commits
    of a sequence whose slots lie in the grid, it answers [true] exactly
    when [n] is at least 7: false up to the sixth commit, true from the
    seventh on. *)
Theorem is_complete_at_seven (b : BoardState) (cs : list (string * position))
    (n : nat) :
  forallb (λ c, slot_in_grid (empty_grid cfg) c.2) cs = true →
  (n ≤ length cs)%nat →
  (∃ ok, is_complete b = Ok (ok, b) ∧ (ok = true ↔ 7 ≤ sum_placed b)) ∧
  ∃ b', (reset cfg;; commits (take n cs)) b = Ok (tt, b') ∧
    sum_placed b' = Z.of_nat n ∧
    is_complete b' = Ok (bool_decide (7 ≤ Z.of_nat n), b').
Proof.
  intros Hin Hn. split.
  - eexists. split; [apply is_complete_run|].
    rewrite sum_placed_total. by rewrite bool_decide_eq_true.
  - destruct (reset_commits_run b (take n cs)) as (b' & Hrun & _ & Htot).
    { apply forallb_forall. intros c Hc%list_elem_of_In.
      rewrite forallb_forall in Hin. apply Hin, list_elem_of_In.
      by apply (subseteq_take n cs). }
    rewrite length_take_le in Htot by done.
    exists b'. split; [done|]. split; [by rewrite sum_placed_total|].
    by rewrite is_complete_run, Htot.
Qed.

End Queries.

(** ** The empty board *)

Lemma count_empty_row (row : list (option string)) (a : Z) :
  foldl (λ count (c : option string),
           match c with None => count + 1 | Some _ => count end) a row
  = a + Z.of_nat (length (filter (λ c : option string, c = None) row)).
Proof.
  revert a. induction row as [|c row IH]; intros a; simpl; [lia|].
  rewrite IH, filter_cons. destruct c as [t|]; case_decide; try done; simpl; lia.
Qed.

Lemma count_empty_grid (g : list (list (option string))) (a : Z) :
  foldl (λ count row,
           foldl (λ count (c : option string),
                    match c with None => count + 1 | Some _ => count end)
                 count row) a g
  = a + cells_empty g.
Proof.
  unfold cells_empty. revert a.
  induction g as [|row g IH]; intros a; simpl; [lia|].
  rewrite IH, count_empty_row, filter_app, length_app. lia.
Qed.

Lemma get_empty_count_run b :
  get_empty_count b = Ok (cells_empty (grid b), b).
Proof.
  unfold get_empty_count, gets. by rewrite count_empty_grid.
Qed.

Lemma cells_empty_replicate (r c : nat) :
  cells_empty (replicate r (replicate c None)) = Z.of_nat (r * c).
Proof.
  unfold cells_empty. f_equal.
  assert (Hrow : filter (λ x : option string, x = None) (replicate c None)
                 = replicate c None).
  { induction c as [|c IH]; [done|]. simpl. rewrite filter_cons.
    case_decide; [|done]. by rewrite IH. }
  induction r as [|r IH]; [done|].
  simpl. rewrite filter_app, length_app, IH, Hrow, length_replicate. done.
Qed.

Section Reset.
Variable cfg : config.

(** C8. Whatever the board was, after [reset] it is the board that
    [__init__] builds: the grid has [BOARD_ROWS] rows of [BOARD_COLS]
    empty cells, every placed count is zero and the consumed set is empty.
    So [can_place_block], [get_empty_count] and [is_complete] answer as on
    a freshly constructed board: the limit of the type is positive, the
    number of cells of the grid, and [false]. *)
Theorem reset_like_fresh (b : BoardState) (T : string) :
  ∃ b', reset cfg b = Ok (tt, b') ∧
    b' = BoardState_init cfg ∧
    grid b' = replicate (Z.to_nat (BOARD_ROWS cfg))
                (replicate (Z.to_nat (BOARD_COLS cfg)) None) ∧
    placed_count b' T = 0 ∧
    used_positions b' = ∅ ∧
    can_place_block cfg T b' = can_place_block cfg T (BoardState_init cfg) ∧
    get_empty_count b' = get_empty_count (BoardState_init cfg) ∧
    is_complete b' = is_complete (BoardState_init cfg) ∧
    can_place_block cfg T b' = Ok (bool_decide (0 < limit_of cfg T), b') ∧
    get_empty_count b'
      = Ok (Z.of_nat (Z.to_nat (BOARD_ROWS cfg) * Z.to_nat (BOARD_COLS cfg)), b') ∧
    is_complete b' = Ok (false, b').
Proof.
  exists (BoardState_init cfg). split; [apply reset_run|].
  repeat split.
  - apply placed_count_init.
  - by rewrite can_place_block_run, placed_count_init.
  - rewrite get_empty_count_run. simpl. unfold empty_grid.
    by rewrite cells_empty_replicate.
  - rewrite is_complete_run. simpl. unfold zero_counts.
    by rewrite total_zero.
Qed.

End Reset.

(** ** Properties of [update_from_scan] *)

Section Scan.
Variable cfg : config.

Lemma update_from_scan_run g b :
  update_from_scan cfg g b =
  Ok (tt, {| grid := g;
             placed_counts :=
               map_fold (λ T n pc, <[T := (n + size_of T - 1) `div` size_of T]> pc)
                        (placed_counts b) (count_cells cfg g);
             used_positions := used_positions b |}).
Proof.
  unfold update_from_scan. run_method. by rewrite list_fmap_id.
Qed.

(** C3. [update_from_scan] returns normally, installs the scanned grid
    and leaves the set of consumed slot identifiers exactly as it was. *)
Theorem update_from_scan_keeps_used (b : BoardState)
    (g : list (list (option string))) :
  ∃ b', update_from_scan cfg g b = Ok (tt, b') ∧
    grid b' = g ∧
    used_positions b' = used_positions b.
Proof.
  rewrite update_from_scan_run. eexists. split; [done|]. done.
Qed.

Lemma count_cell_lookup (cc : gmap string Z) (c : option string) T :
  count_cell cc c !! T
  = (λ n, n + (if decide (c = Some T) then 1 else 0)) <$> cc !! T.
Proof.
  unfold count_cell. destruct c as [bt|].
  - destruct (cc !! bt) as [n|] eqn:E.
    + destruct (decide (bt = T)) as [->|Hne].
      * rewrite lookup_insert_eq, E. simpl. by rewrite decide_True.
      * rewrite lookup_insert_ne by done.
        rewrite decide_False by congruence.
        destruct (cc !! T); simpl; f_equal; lia.
    + destruct (decide (bt = T)) as [->|Hne].
      * by rewrite E.
      * rewrite decide_False by congruence.
        destruct (cc !! T); simpl; f_equal; lia.
  - rewrite decide_False by done.
    destruct (cc !! T); simpl; f_equal; lia.
Qed.

Lemma count_row_lookup (row : list (option string)) (cc : gmap string Z) T :
  foldl count_cell cc row !! T
  = (λ n, n + Z.of_nat (length (filter (λ c : option string, c = Some T) row)))
      <$> cc !! T.
Proof.
  revert cc. induction row as [|c row IH]; intros cc; simpl.
  - destruct (cc !! T); simpl; f_equal; lia.
  - rewrite IH, count_cell_lookup, filter_cons.
    destruct (cc !! T) as [n|]; simpl; [|done].
    f_equal. case_decide; simpl; lia.
Qed.

Lemma count_grid_lookup (g : list (list (option string))) (cc : gmap string Z) T :
  foldl (λ cell_counts row, foldl count_cell cell_counts row) cc g !! T
  = (λ n, n + cells_labelled g T) <$> cc !! T.
Proof.
  unfold cells_labelled. revert cc.
  induction g as [|row g IH]; intros cc; simpl.
  - destruct (cc !! T); simpl; f_equal; lia.
  - rewrite IH, count_row_lookup, filter_app, length_app.
    destruct (cc !! T) as [n|]; simpl; [|done]. f_equal. lia.
Qed.

Lemma count_cells_lookup g T :
  count_cells cfg g !! T = (λ _, cells_labelled g T) <$> BLOCK_LIMITS cfg !! T.
Proof.
  unfold count_cells. rewrite count_grid_lookup. unfold zero_counts.
  rewrite lookup_fmap. by destruct (BLOCK_LIMITS cfg !! T).
Qed.

Lemma recount_lookup (f : string → Z → Z) (pc cc : gmap string Z) T :
  map_fold (λ T n acc, <[T := f T n]> acc) pc cc !! T
  = match cc !! T with
    | Some n => Some (f T n)
    | None => pc !! T
    end.
Proof.
  revert T.
  apply (map_fold_weak_ind
    (λ acc m, ∀ T, acc !! T
                   = match m !! T with Some n => Some (f T n) | None => pc !! T end)).
  - intros T. by rewrite lookup_empty.
  - intros i x m r Hi IH T. destruct (decide (i = T)) as [->|Hne].
    + by rewrite !lookup_insert_eq.
    + rewrite !lookup_insert_ne by done. apply IH.
Qed.

Lemma size_of_pos T : 0 < size_of T.
Proof.
  assert (H : map_Forall (λ _ v, 0 < v) sizes).
  { apply (bool_decide_unpack _). by vm_compute. }
  unfold size_of. destruct (sizes !! T) as [v|] eqn:E; simpl; [|lia].
  exact (H T v E).
Qed.

Lemma ceil_quotient_div k s :
  0 < s → ceil_quotient k s = (k + s - 1) `div` s.
Proof.
  intros Hs. unfold ceil_quotient, Qceiling, Qfloor.
  destruct s as [|p|p]; try lia.
  unfold Qdiv, Qinv, Qmult, Qopp, inject_Z. simpl.
  rewrite Z.mul_1_r. change (1 * p)%positive with p.
  apply (Z.div_unique _ _ _ (Z.pos p - 1 - (- k) `mod` Z.pos p)).
  - left. pose proof (Z.mod_pos_bound (- k) (Z.pos p)). lia.
  - pose proof (Z.div_mod (- k) (Z.pos p)). lia.
Qed.

(** C2. For a type [T] that has an entry in [BLOCK_LIMITS],
    [update_from_scan] returns normally and sets the placed count of [T]
    to [ceil(K / size)], where [K] is the number of cells of the scanned
    grid labelled [T] and [size] is the entry of [T] in the [sizes] table
    (1 without an entry): the count [n] is the integer with
    [(n - 1) * size < K <= n * size].  The board before the call, with its
    counts and its consumed set, does not matter. *)
Theorem update_from_scan_counts (b : BoardState)
    (g : list (list (option string))) (T : string) (q : Z) :
  BLOCK_LIMITS cfg !! T = Some q →
  ∃ b', update_from_scan cfg g b = Ok (tt, b') ∧
    placed_counts b' !! T
      = Some (ceil_quotient (cells_labelled g T) (size_of T)) ∧
    (placed_count b' T - 1) * size_of T < cells_labelled g T
      ≤ placed_count b' T * size_of T.
Proof.
  intros HT. rewrite update_from_scan_run. eexists. split; [done|].
  unfold placed_count. simpl.
  rewrite (recount_lookup (λ T n, (n + size_of T - 1) `div` size_of T)).
  rewrite count_cells_lookup, HT. simpl.
  pose proof (size_of_pos T) as Hs.
  split; [by rewrite ceil_quotient_div|].
  pose proof (Z.div_mod (cells_labelled g T + size_of T - 1) (size_of T)).
  pose proof (Z.mod_pos_bound (cells_labelled g T + size_of T - 1) (size_of T)).
  nia.
Qed.

End Scan.

(** ** The invariant between placed counts and the consumed set *)

Section Invariant.
Variable cfg : config.

Lemma candidates_elem pos T :
  pos ∈ candidates cfg T →
  ∃ l, BLOCK_POSITIONS cfg !! T = Some l ∧ pos ∈ l.
Proof.
  unfold candidates. destruct (BLOCK_POSITIONS cfg !! T) as [l|]; simpl.
  - eauto.
  - intros H. inversion H.
Qed.

Lemma distinct_ids T T' pos :
  catalog_ids_distinct cfg = true →
  pos ∈ candidates cfg T → T' ≠ T → id pos ∉ slot_ids cfg T'.
Proof.
  unfold catalog_ids_distinct. rewrite bool_decide_eq_true.
  intros Hd (l1 & Hl1 & Hpos)%candidates_elem Hne.
  unfold slot_ids. rewrite elem_of_list_to_set.
  intros (p' & Hid & (l2 & Hl2 & Hp')%candidates_elem)%list_elem_of_fmap.
  destruct (Hd T l1 Hl1 T' l2 Hl2) as [->|Hall]; [done|].
  rewrite Forall_forall in Hall. apply (Hall pos Hpos).
  rewrite Hid. apply list_elem_of_fmap. eauto.
Qed.

Lemma own_id T pos : pos ∈ candidates cfg T → id pos ∈ slot_ids cfg T.
Proof.
  intros H. unfold slot_ids. rewrite elem_of_list_to_set.
  apply list_elem_of_fmap. eauto.
Qed.

Lemma counts_match_init : counts_match cfg (BoardState_init cfg).
Proof.
  intros T. rewrite placed_count_init. unfold consumed_count. simpl.
  assert (∅ ∩ slot_ids cfg T = (∅ : gset string)) as -> by set_solver.
  by rewrite size_empty.
Qed.

Lemma commit_preserves_counts b T pos g' :
  catalog_ids_distinct cfg = true →
  pos ∈ candidates cfg T →
  id pos ∉ used_positions b →
  counts_match cfg b →
  counts_match cfg
    {| grid := g';
       placed_counts := <[T := placed_count b T + 1]> (placed_counts b);
       used_positions := used_positions b ∪ {[id pos]} |}.
Proof.
  intros Hd Hpos Hfresh Hinv T'. unfold consumed_count. simpl.
  destruct (decide (T' = T)) as [->|Hne].
  - rewrite placed_count_insert_eq, Hinv. unfold consumed_count.
    pose proof (own_id T pos Hpos) as Hown.
    assert ((used_positions b ∪ {[id pos]}) ∩ slot_ids cfg T
            = {[id pos]} ∪ used_positions b ∩ slot_ids cfg T) as ->
      by set_solver.
    assert (Hdisj : ({[id pos]} : gset string)
                      ## used_positions b ∩ slot_ids cfg T) by set_solver.
    rewrite (size_union _ _ Hdisj), size_singleton. lia.
  - rewrite placed_count_insert_ne by done.
    fold (placed_count b T'). rewrite Hinv. unfold consumed_count.
    pose proof (distinct_ids T T' pos Hd Hpos Hne) as Hother.
    assert ((used_positions b ∪ {[id pos]}) ∩ slot_ids cfg T'
            = used_positions b ∩ slot_ids cfg T') as -> by set_solver.
    done.
Qed.

(** C4 (as amended).  The invariant [counts_match] -- for every type the
    placed count is the number of consumed slot identifiers of that
    type -- holds after [reset] on any board, whatever its state was; and
    [mark_position_used T S] keeps it when [S] is one of the candidates of
    [T], the identifier of [S] is not yet consumed, no identifier is shared
    between the candidate lists of two types, and the cells of [S] lie in
    the grid.  Only the second part has hypotheses. *)
Theorem counts_match_preserved (b : BoardState) (T : string) (S : position)
    (k : nat) :
  (∃ b0, reset cfg b = Ok (tt, b0) ∧ counts_match cfg b0) ∧
  (catalog_ids_distinct cfg = true →
   candidates cfg T !! k = Some S →
   id S ∉ used_positions b →
   slot_in_grid (grid b) S = true →
   counts_match cfg b →
   ∃ b', mark_position_used T S b = Ok (tt, b') ∧ counts_match cfg b').
Proof.
  split.
  - exists (BoardState_init cfg). split; [apply reset_run|].
    apply counts_match_init.
  - intros Hd Hk Hfresh Hin Hinv.
    destruct (mark_position_used_run T S b Hin) as (g' & _ & ->).
    eexists. split; [done|].
    apply commit_preserves_counts; try done.
    by apply list_elem_of_lookup_2 in Hk.
Qed.

End Invariant.

(** ** The worker loop *)

Lemma occurrences_app p evs1 evs2 :
  occurrences p (evs1 ++ evs2) = (occurrences p evs1 + occurrences p evs2)%nat.
Proof. induction evs1 as [|e evs1 IH]; simpl; [done|]. rewrite IH. lia. Qed.

Lemma quiet_occurrences evs :
  Forall (λ e, quiet e = true) evs →
  occurrences is_pause_transition evs = 0%nat ∧
  occurrences is_chest_empty evs = 0%nat ∧
  occurrences is_place evs = 0%nat ∧
  occurrences is_discard evs = 0%nat ∧
  occurrences is_pause_status evs = 0%nat.
Proof.
  induction 1 as [|e evs He _ (IH1 & IH2 & IH3 & IH4 & IH5)]; simpl; [done|].
  rewrite IH1, IH2, IH3, IH4, IH5. unfold quiet in He.
  destruct (is_pause_transition e), (is_chest_empty e), (is_place e),
    (is_discard e), (is_pause_status e); done.
Qed.

Section Worker.
Variable cfg : config.

Lemma update_status_run st msg sta ir ip ss sts bd scb oce rd tr :
  update_status st msg (mkBot sta ir ip ss sts bd scb oce rd tr)
  = Ok (tt, mkBot st ir ip ss sts bd scb oce rd
             (tr ++ Transition st ::
                (if scb then [StatusCallback (default (BotState_value st) msg) sts]
                 else []))).
Proof.
  unfold update_status, emit, set_state, set_trace. run_method.
  destruct scb; simpl; by rewrite <- ?app_assoc.
Qed.

Lemma fetch_attempts_fail n :
  ∀ sta ir ip ss sts bd scb oce rd tr,
    Forall (λ r, r = None) (take n rd) →
    ∃ sta' evs,
      fetch_attempts n (mkBot sta ir ip ss sts bd scb oce rd tr)
      = Ok (None, mkBot sta' ir ip ss sts bd scb oce (drop n rd) (tr ++ evs)) ∧
      Forall (λ e, quiet e = true) evs ∧
      occurrences is_fetch evs = n.
Proof.
  induction n as [|n IH]; intros sta ir ip ss sts bd scb oce rd tr Hrd.
  - exists sta, []. simpl. rewrite app_nil_r, drop_0. by repeat split.
  - cbn [fetch_attempts]. unfold emit, detect, set_trace, set_readings.
    run_method. rewrite update_status_run. simpl.
    assert (Hstep : ∀ rd',
      Forall (λ r : option string, r = None) (take n rd') →
      ∃ sta' evs,
        fetch_attempts n
          (mkBot DETECTING ir ip ss sts bd scb oce rd'
             (((((tr ++ [FetchNewBlock]) ++ [Sleep (DELAYS "detection_wait")]) ++
                Transition DETECTING ::
                  (if scb then [StatusCallback "Rozpoznaję..." sts] else [])) ++
               [DetectAtParking]) ++ [Sleep (DELAYS "retry_delay")]))
        = Ok (None, mkBot sta' ir ip ss sts bd scb oce (drop n rd') (tr ++ evs)) ∧
        Forall (λ e, quiet e = true) evs ∧
        occurrences is_fetch evs = S n).
    { intros rd' Hrd'.
      edestruct (IH DETECTING ir ip ss sts bd scb oce rd')
        as (sta' & evs & Hrun & Hq & Hn); [exact Hrd'|].
      exists sta'.
      exists ([FetchNewBlock; Sleep (DELAYS "detection_wait")] ++
              (Transition DETECTING ::
                 (if scb then [StatusCallback "Rozpoznaję..." sts] else [])) ++
              [DetectAtParking; Sleep (DELAYS "retry_delay")] ++ evs).
      split; [|split].
      - rewrite Hrun. do 3 f_equal.
        repeat (rewrite <- app_assoc; simpl). done.
      - repeat (apply Forall_app; split); try done.
        + repeat constructor.
        + destruct scb; repeat constructor.
        + repeat constructor.
      - rewrite !occurrences_app, Hn. destruct scb; simpl; lia. }
    destruct rd as [|r rd]; simpl.
    + destruct (Hstep []) as (sta' & evs & Hrun & Hq & Hn).
      { rewrite take_nil. constructor. }
      rewrite drop_nil in Hrun. eauto.
    + inversion Hrd as [|? ? Hr Hrd']; subst. simpl.
      destruct (Hstep rd Hrd') as (sta' & evs & Hrun & Hq & Hn). eauto.
Qed.

Lemma fetch_attempts_hit k :
  ∀ n sta ir ip ss sts bd scb oce t rest tr,
    (k < n)%nat →
    ∃ evs,
      fetch_attempts n
        (mkBot sta ir ip ss sts bd scb oce (replicate k None ++ Some t :: rest) tr)
      = Ok (Some t, mkBot DETECTING ir ip ss sts bd scb oce rest (tr ++ evs)) ∧
      Forall (λ e, quiet e = true) evs.
Proof.
  induction k as [|k IH]; intros n sta ir ip ss sts bd scb oce t rest tr Hk;
    (destruct n as [|n]; [lia|]);
    cbn [fetch_attempts]; unfold emit, detect, set_trace, set_readings;
    run_method; rewrite update_status_run; simpl.
  - exists ([FetchNewBlock; Sleep (DELAYS "detection_wait")] ++
            (Transition DETECTING ::
               (if scb then [StatusCallback "Rozpoznaję..." sts] else [])) ++
            [DetectAtParking]).
    split.
    + do 3 f_equal. repeat (rewrite <- app_assoc; simpl). done.
    + repeat (apply Forall_app; split); try done.
      * repeat constructor.
      * destruct scb; repeat constructor.
      * repeat constructor.
  - edestruct (IH n DETECTING ir ip ss sts bd scb oce t rest) as (evs & Hrun & Hq);
      [lia|].
    exists ([FetchNewBlock; Sleep (DELAYS "detection_wait")] ++
            (Transition DETECTING ::
               (if scb then [StatusCallback "Rozpoznaję..." sts] else [])) ++
            [DetectAtParking; Sleep (DELAYS "retry_delay")] ++ evs).
    split.
    + rewrite Hrun. do 3 f_equal. repeat (rewrite <- app_assoc; simpl). done.
    + repeat (apply Forall_app; split); try done.
      * repeat constructor.
      * destruct scb; repeat constructor.
      * repeat constructor.
Qed.

Lemma fetch_block_fail sta ir ip ss sts bd scb oce rd tr :
  Forall (λ r, r = None) (take (Z.to_nat (MAX_CHEST_RETRIES cfg)) rd) →
  ∃ sta' evs,
    _fetch_block cfg (mkBot sta ir ip ss sts bd scb oce rd tr)
    = Ok (None, mkBot sta' ir ip ss sts bd scb oce
                  (drop (Z.to_nat (MAX_CHEST_RETRIES cfg)) rd) (tr ++ evs)) ∧
    occurrences is_pause_transition evs = 0%nat ∧
    occurrences is_chest_empty evs = (if oce then 1 else 0)%nat ∧
    occurrences is_place evs = 0%nat ∧
    occurrences is_discard evs = 0%nat ∧
    occurrences is_fetch evs = Z.to_nat (MAX_CHEST_RETRIES cfg) ∧
    occurrences is_pause_status evs = 0%nat.
Proof.
  intros Hrd. unfold _fetch_block. run_method. rewrite update_status_run.
  simpl.
  edestruct (fetch_attempts_fail (Z.to_nat (MAX_CHEST_RETRIES cfg))
               FETCHING ir ip ss sts bd scb oce rd)
    as (sta' & evs & Hrun & Hq & Hn); [exact Hrd|].
  rewrite Hrun. simpl. unfold emit, set_trace. run_method.
  destruct (quiet_occurrences evs Hq) as (Q1 & Q2 & Q3 & Q4 & Q5).
  exists sta'.
  exists ((Transition FETCHING ::
             (if scb then [StatusCallback "Pobieram klocek..." sts] else [])) ++
          evs ++ (if oce then [ChestEmpty] else [])).
  split.
  - destruct oce; simpl; do 3 f_equal;
      repeat (rewrite <- app_assoc; simpl); by rewrite ?app_nil_r.
  - rewrite !occurrences_app, Q1, Q2, Q3, Q4, Q5, Hn.
    destruct scb, oce; simpl; repeat split; lia.
Qed.

Lemma fetch_block_hit k sta ir ip ss sts bd scb oce t rest tr :
  (k < Z.to_nat (MAX_CHEST_RETRIES cfg))%nat →
  ∃ evs,
    _fetch_block cfg
      (mkBot sta ir ip ss sts bd scb oce (replicate k None ++ Some t :: rest) tr)
    = Ok (Some t, mkBot DETECTING ir ip ss sts bd scb oce rest (tr ++ evs)) ∧
    Forall (λ e, quiet e = true) evs.
Proof.
  intros Hk. unfold _fetch_block. run_method. rewrite update_status_run.
  simpl.
  edestruct (fetch_attempts_hit k (Z.to_nat (MAX_CHEST_RETRIES cfg))
               FETCHING ir ip ss sts bd scb oce t rest)
    as (evs & Hrun & Hq); [exact Hk|].
  rewrite Hrun. simpl.
  exists ((Transition FETCHING ::
             (if scb then [StatusCallback "Pobieram klocek..." sts] else [])) ++
          evs).
  split.
  - do 3 f_equal. repeat (rewrite <- app_assoc; simpl). done.
  - apply Forall_app. split; [|done].
    constructor; [done|]. destruct scb; repeat constructor.
Qed.

Lemma discard_block_run t sta ir ip ss sts bd scb oce rd tr :
  _discard_block t (mkBot sta ir ip ss sts bd scb oce rd tr)
  = Ok (tt, mkBot DISCARDING ir ip ss
              (mkStats (boards_completed sts) (blocks_placed sts)
                       (blocks_discarded sts + 1) (current_board_blocks sts))
              bd scb oce rd
              (tr ++ (Transition DISCARDING ::
                        (if scb
                         then [StatusCallback ("Odrzucam " +:+ t +:+ "...") sts]
                         else [])) ++ [DiscardCurrentBlock])).
Proof.
  unfold _discard_block. run_method. rewrite update_status_run. simpl.
  unfold emit, set_trace, add_discarded, set_stats. run_method.
  by rewrite <- app_assoc.
Qed.

Lemma loop_body_starved sta ir sts bd scb oce rd tr :
  is_complete bd = Ok (false, bd) →
  Forall (λ r, r = None) (take (Z.to_nat (MAX_CHEST_RETRIES cfg)) rd) →
  ∃ evs,
    loop_body cfg (mkBot sta ir false false sts bd scb oce rd tr)
    = Ok (Next, mkBot PAUSED ir true false sts bd scb oce
                  (drop (Z.to_nat (MAX_CHEST_RETRIES cfg)) rd) (tr ++ evs)) ∧
    occurrences is_pause_transition evs = 1%nat ∧
    occurrences is_chest_empty evs = (if oce then 1 else 0)%nat ∧
    occurrences is_place evs = 0%nat ∧
    occurrences is_discard evs = 0%nat ∧
    occurrences is_fetch evs = Z.to_nat (MAX_CHEST_RETRIES cfg) ∧
    occurrences is_pause_status evs = (if scb then 1 else 0)%nat.
Proof.
  intros Hc Hrd. unfold loop_body, _wait_while_paused, on_board.
  rewrite is_complete_run in Hc. injection Hc as Hc. unfold total in Hc.
  run_method. rewrite Hc.
  destruct (fetch_block_fail sta ir false false sts bd scb oce rd tr Hrd)
    as (sta' & evs & Hrun & E1 & E2 & E3 & E4 & E5 & E6).
  unfold set_board. simpl. destruct bd as [g pc u]. simpl in *.
  rewrite Hrun. simpl. unfold set_is_paused. simpl.
  rewrite update_status_run. simpl.
  exists (evs ++ Transition PAUSED ::
            (if scb then [StatusCallback "Wymień skrzynkę i naciśnij HOME" sts]
             else [])).
  split; [by rewrite <- app_assoc|].
  rewrite !occurrences_app, E1, E2, E3, E4, E5, E6.
  destruct scb, oce; simpl; repeat split; lia.
Qed.

Lemma loop_body_orange k sta ir sts bd scb oce rest tr :
  is_complete bd = Ok (false, bd) →
  (k < Z.to_nat (MAX_CHEST_RETRIES cfg))%nat →
  ∃ evs,
    loop_body cfg
      (mkBot sta ir false false sts bd scb oce
             (replicate k None ++ Some "ORANGE" :: rest) tr)
    = Ok (Next, mkBot DISCARDING ir false false
                  (mkStats (boards_completed sts) (blocks_placed sts)
                           (blocks_discarded sts + 1) (current_board_blocks sts))
                  bd scb oce rest (tr ++ evs)) ∧
    occurrences is_discard evs = 1%nat ∧
    occurrences is_place evs = 0%nat ∧
    occurrences is_pause_transition evs = 0%nat.
Proof.
  intros Hc Hk. unfold loop_body, _wait_while_paused, on_board.
  rewrite is_complete_run in Hc. injection Hc as Hc. unfold total in Hc.
  run_method. rewrite Hc.
  destruct (fetch_block_hit k sta ir false false sts bd scb oce "ORANGE" rest tr Hk)
    as (evs & Hrun & Hq).
  unfold set_board. simpl. destruct bd as [g pc u]. simpl in *.
  rewrite Hrun. simpl. rewrite discard_block_run. simpl.
  unfold emit, set_trace. run_method.
  destruct (quiet_occurrences evs Hq) as (Q1 & Q2 & Q3 & Q4 & _).
  exists (evs ++ (Transition DISCARDING ::
                    (if scb then [StatusCallback "Odrzucam ORANGE..." sts] else [])) ++
          [DiscardCurrentBlock; Sleep (Seconds 0.05)]).
  split.
  - do 3 f_equal. repeat (rewrite <- app_assoc; simpl). done.
  - rewrite !occurrences_app, Q1, Q3, Q4. destruct scb; simpl; repeat split; lia.
Qed.

Lemma nothing_detected_Forall rs :
  nothing_detected rs = true → Forall (λ r, r = None) rs.
Proof.
  unfold nothing_detected. rewrite forallb_forall, Forall_forall.
  intros H r Hr%list_elem_of_In. specialize (H r Hr). by destruct r.
Qed.

(** C9 (as amended).  A pass of the worker loop that starts neither paused
    nor stopped on an incomplete board, and in which the detector finds
    nothing in [MAX_CHEST_RETRIES] consecutive attempts, ends with the bot
    paused: the state becomes [PAUSED] exactly once and [is_paused] is set;
    the chest-empty callback is called exactly once if one is registered
    and not at all otherwise, and likewise the status callback is told
    once, if registered, to replace the chest; no block is placed and none
    is discarded; the board and the statistics are as before.  The pass
    makes exactly [MAX_CHEST_RETRIES] fetches. *)
Theorem starved_pass_pauses (s : Bot) :
  is_paused s = false →
  should_stop s = false →
  is_complete (board s) = Ok (false, board s) →
  nothing_detected (take (Z.to_nat (MAX_CHEST_RETRIES cfg)) (readings s)) = true →
  ∃ s' evs,
    loop_body cfg s = Ok (Next, s') ∧
    trace s' = trace s ++ evs ∧
    state s' = PAUSED ∧ is_paused s' = true ∧
    occurrences is_pause_transition evs = 1%nat ∧
    occurrences is_chest_empty evs = (if on_chest_empty s then 1 else 0)%nat ∧
    occurrences is_pause_status evs = (if status_callback s then 1 else 0)%nat ∧
    occurrences is_place evs = 0%nat ∧
    occurrences is_discard evs = 0%nat ∧
    occurrences is_fetch evs = Z.to_nat (MAX_CHEST_RETRIES cfg) ∧
    board s' = board s ∧ stats s' = stats s.
Proof.
  destruct s as [sta ir ip ss sts bd scb oce rd tr]. simpl.
  intros -> -> Hc Hrd%nothing_detected_Forall.
  destruct (loop_body_starved sta ir sts bd scb oce rd tr Hc Hrd)
    as (evs & Hrun & E1 & E2 & E3 & E4 & E5 & E6).
  eexists. exists evs. split; [exact Hrun|]. simpl. by repeat split.
Qed.

Lemma orange_readings_cons k ks rest :
  orange_readings (k :: ks) ++ rest
  = replicate k None ++ Some "ORANGE" :: (orange_readings ks ++ rest).
Proof.
  unfold orange_readings. simpl. by rewrite <- !app_assoc.
Qed.

Lemma main_loop_orange ks :
  ∀ sta sts bd scb oce rest tr,
    is_complete bd = Ok (false, bd) →
    Forall (λ k, (k < Z.to_nat (MAX_CHEST_RETRIES cfg))%nat) ks →
    ∃ sta' evs,
      main_loop_passes cfg (length ks)
        (mkBot sta true false false sts bd scb oce (orange_readings ks ++ rest) tr)
      = Ok (Next, mkBot sta' true false false
                    (mkStats (boards_completed sts) (blocks_placed sts)
                             (blocks_discarded sts + Z.of_nat (length ks))
                             (current_board_blocks sts))
                    bd scb oce rest (tr ++ evs)) ∧
      occurrences is_discard evs = length ks ∧
      occurrences is_place evs = 0%nat ∧
      occurrences is_pause_transition evs = 0%nat.
Proof.
  induction ks as [|k ks IH]; intros sta sts bd scb oce rest tr Hc Hks.
  - exists sta, []. simpl. rewrite app_nil_r, Z.add_0_r.
    destruct sts. by repeat split.
  - inversion Hks as [|? ? Hk Hks']; subst.
    rewrite orange_readings_cons.
    destruct (loop_body_orange k sta true sts bd scb oce
                (orange_readings ks ++ rest) tr Hc Hk)
      as (evs1 & Hrun1 & D1 & P1 & T1).
    edestruct (IH DISCARDING
                 (mkStats (boards_completed sts) (blocks_placed sts)
                          (blocks_discarded sts + 1) (current_board_blocks sts))
                 bd scb oce rest (tr ++ evs1) Hc Hks')
      as (sta' & evs2 & Hrun2 & D2 & P2 & T2).
    exists sta', (evs1 ++ evs2). split.
    + cbn [main_loop_passes length]. run_method. rewrite Hrun1. simpl.
      rewrite Hrun2. simpl. do 3 f_equal; [|by rewrite app_assoc].
      f_equal. lia.
    + rewrite !occurrences_app, D1, D2, P1, P2, T1, T2. simpl. done.
Qed.

(** C10.  While the worker runs, neither paused nor stopped, on an
    incomplete board, and the detector classifies [N] blocks in a row as
    ORANGE (each within the retry bound), the next [N] passes of the loop
    discard [N] blocks and place none: the discard statistic grows by
    exactly [N], the other statistics and the whole board (grid, placed
    counts, consumed set) are unchanged.  With [N = 1] this is a single
    pass. *)
Theorem orange_always_discarded (s : Bot) (ks : list nat)
    (rest : list (option string)) :
  is_running s = true →
  is_paused s = false →
  should_stop s = false →
  is_complete (board s) = Ok (false, board s) →
  forallb (λ k, k <? Z.to_nat (MAX_CHEST_RETRIES cfg))%nat ks = true →
  readings s = orange_readings ks ++ rest →
  ∃ s' evs,
    main_loop_passes cfg (length ks) s = Ok (Next, s') ∧
    trace s' = trace s ++ evs ∧
    occurrences is_discard evs = length ks ∧
    occurrences is_place evs = 0%nat ∧
    blocks_discarded (stats s')
      = blocks_discarded (stats s) + Z.of_nat (length ks) ∧
    blocks_placed (stats s') = blocks_placed (stats s) ∧
    current_board_blocks (stats s') = current_board_blocks (stats s) ∧
    boards_completed (stats s') = boards_completed (stats s) ∧
    board s' = board s ∧
    readings s' = rest.
Proof.
  destruct s as [sta ir ip ss sts bd scb oce rd tr]. simpl.
  intros -> -> -> Hc Hks ->.
  assert (Hks' : Forall (λ k, (k < Z.to_nat (MAX_CHEST_RETRIES cfg))%nat) ks).
  { apply Forall_forall. intros k Hk%list_elem_of_In.
    rewrite forallb_forall in Hks. by apply Nat.ltb_lt, Hks. }
  destruct (main_loop_orange ks sta sts bd scb oce rest tr Hc Hks')
    as (sta' & evs & Hrun & D & P & _).
  eexists. exists evs. split; [exact Hrun|]. simpl. by repeat split.
Qed.

End Worker.

(** ** Runs on the sample configuration *)

Example sample_first_red :
  get_next_position sample_config "RED" fresh_board = Ok (Some pos_R1, fresh_board).
Proof. vm_compute. reflexivity. Qed.

Example sample_second_red :
  get_next_position sample_config "RED" board_R1 = Ok (Some pos_R2, board_R1).
Proof. vm_compute. reflexivity. Qed.

Lemma get_next_position_first_fit_witness :
  slots_in_grid sample_config (grid board_R1) "RED" = true ∧
  ∃ r, get_next_position sample_config "RED" board_R1 = Ok (r, board_R1) ∧
    match r with
    | Some pos =>
        (∃ l1 l2, candidates sample_config "RED" = l1 ++ pos :: l2 ∧
           Forall (λ p, ¬ available board_R1 p) l1) ∧
        (id pos ∉ used_positions board_R1) ∧
        (∀ rc, rc ∈ cells pos → cell_at (grid board_R1) rc = Ok None)
    | None => ∀ p, p ∈ candidates sample_config "RED" → ¬ available board_R1 p
    end.
Proof.
  split; [reflexivity|].
  apply (get_next_position_first_fit sample_config board_R1 "RED").
  reflexivity.
Defined.

Lemma update_from_scan_counts_witness :
  BLOCK_LIMITS sample_config !! "BLUE" = Some 1 ∧
  ∃ b', update_from_scan sample_config five_blue_grid board_R1_twice = Ok (tt, b') ∧
    cells_labelled five_blue_grid "BLUE" = 5 ∧
    placed_counts b' !! "BLUE" = Some 2.
Proof.
  split; [reflexivity|].
  destruct (update_from_scan_counts sample_config board_R1_twice five_blue_grid
              "BLUE" 1 eq_refl) as (b' & Hrun & Hcnt & _).
  exists b'. split; [exact Hrun|]. split; [reflexivity|].
  rewrite Hcnt. reflexivity.
Defined.

Lemma can_place_block_quota_witness :
  forallb (λ c, slot_in_grid (empty_grid sample_config) c.2)
    [("RED", pos_R1); ("RED", pos_R2)] = true ∧
  limit_of sample_config "RED" = 2 ∧
  ∃ b', (reset sample_config;; commits [("RED", pos_R1); ("RED", pos_R2)]) fresh_board
        = Ok (tt, b') ∧
    can_place_block sample_config "RED" b' = Ok (false, b').
Proof.
  split; [reflexivity|]. split; [reflexivity|].
  destruct (can_place_block_quota sample_config fresh_board
              [("RED", pos_R1); ("RED", pos_R2)] "RED" eq_refl)
    as (_ & b' & Hrun & ok & Hok & Hiff).
  exists b'. split; [exact Hrun|].
  assert (ok = false) as -> by (apply Hiff; vm_compute; discriminate).
  exact Hok.
Defined.

Lemma mark_position_used_effect_witness :
  slot_in_grid (grid fresh_board) pos_R1 = true ∧
  ∃ b', mark_position_used "RED" pos_R1 fresh_board = Ok (tt, b') ∧
    cell_at (grid b') (0, 0) = Ok (Some "RED") ∧
    placed_count b' "RED" = 1 ∧
    used_positions b' = {[ "R1" ]}.
Proof.
  split; [reflexivity|].
  destruct (mark_position_used_effect fresh_board "RED" pos_R1 eq_refl)
    as (b' & Hrun & Hcells & _ & Hcnt & _ & Hused).
  exists b'. split; [exact Hrun|]. split; [|split].
  - apply Hcells. simpl. left.
  - rewrite Hcnt. reflexivity.
  - rewrite Hused. simpl. apply set_eq. intros x. set_solver.
Defined.

Lemma is_complete_at_seven_witness :
  forallb (λ c, slot_in_grid (empty_grid sample_config) c.2) seven_commits = true ∧
  (∃ b6, (reset sample_config;; commits (take 6 seven_commits)) fresh_board
         = Ok (tt, b6) ∧ is_complete b6 = Ok (false, b6)) ∧
  (∃ b7, (reset sample_config;; commits (take 7 seven_commits)) fresh_board
         = Ok (tt, b7) ∧ is_complete b7 = Ok (true, b7)).
Proof.
  split; [reflexivity|]. split.
  - destruct (is_complete_at_seven sample_config fresh_board seven_commits 6
                eq_refl) as (_ & b' & Hrun & _ & Hc); [simpl; lia|].
    exists b'. split; [exact Hrun | exact Hc].
  - destruct (is_complete_at_seven sample_config fresh_board seven_commits 7
                eq_refl) as (_ & b' & Hrun & _ & Hc); [simpl; lia|].
    exists b'. split; [exact Hrun | exact Hc].
Defined.

Lemma counts_match_preserved_witness :
  (∃ b0, reset sample_config board_R1_twice = Ok (tt, b0) ∧
     counts_match sample_config b0) ∧
  catalog_ids_distinct sample_config = true ∧
  candidates sample_config "RED" !! 0%nat = Some pos_R1 ∧
  (id pos_R1 ∉ used_positions fresh_board) ∧
  slot_in_grid (grid fresh_board) pos_R1 = true ∧
  counts_match sample_config fresh_board ∧
  ∃ b', mark_position_used "RED" pos_R1 fresh_board = Ok (tt, b') ∧
    counts_match sample_config b'.
Proof.
  assert (Hfresh : id pos_R1 ∉ used_positions fresh_board) by apply not_elem_of_empty.
  split; [exact (proj1 (counts_match_preserved sample_config board_R1_twice
                          "RED" pos_R1 0))|].
  split; [reflexivity|]. split; [reflexivity|]. split; [exact Hfresh|].
  split; [reflexivity|]. split; [exact (counts_match_init sample_config)|].
  exact (proj2 (counts_match_preserved sample_config fresh_board "RED" pos_R1 0)
           eq_refl eq_refl Hfresh eq_refl (counts_match_init sample_config)).
Defined.

(** The invariant does not survive a second commit of the same slot: after
    [reset] and [mark_position_used "RED" pos_R1] twice, the placed count of RED
    is 2 while one RED identifier is consumed. *)
Lemma counts_broken_by_double_commit :
  (reset sample_config;;
   mark_position_used "RED" pos_R1;;
   mark_position_used "RED" pos_R1) fresh_board = Ok (tt, board_R1_twice) ∧
  placed_count board_R1_twice "RED" = 2 ∧
  consumed_count sample_config board_R1_twice "RED" = 1 ∧
  ¬ counts_match sample_config board_R1_twice.
Proof.
  split; [vm_compute; reflexivity|].
  split; [vm_compute; reflexivity|].
  split; [vm_compute; reflexivity|].
  intros H. specialize (H "RED"). vm_compute in H. discriminate.
Qed.

Lemma starved_pass_pauses_witness :
  let s := sample_bot true [None; None; None; Some "RED"] in
  is_paused s = false ∧ should_stop s = false ∧
  is_complete (board s) = Ok (false, board s) ∧
  nothing_detected (take (Z.to_nat (MAX_CHEST_RETRIES sample_config)) (readings s))
    = true ∧
  ∃ s' evs,
    loop_body sample_config s = Ok (Next, s') ∧
    trace s' = trace s ++ evs ∧
    state s' = PAUSED ∧
    occurrences is_pause_transition evs = 1%nat ∧
    occurrences is_chest_empty evs = 1%nat ∧
    occurrences is_pause_status evs = 1%nat ∧
    occurrences is_fetch evs = 3%nat ∧
    board s' = board s.
Proof.
  intros s.
  split; [reflexivity|]. split; [reflexivity|]. split; [reflexivity|].
  split; [reflexivity|].
  destruct (starved_pass_pauses sample_config s eq_refl eq_refl eq_refl eq_refl)
    as (s' & evs & Hrun & Htr & Hst & _ & E1 & E2 & E3 & _ & _ & E5 & Hb & _).
  exists s', evs.
  split; [exact Hrun|]. split; [exact Htr|]. split; [exact Hst|].
  split; [exact E1|]. split; [exact E2|]. split; [exact E3|].
  split; [exact E5|exact Hb].
Defined.

(** Without callbacks -- as [__init__] leaves the bot when none is given --
    the pass that ends in [PAUSED] after three empty readings calls neither
    the chest-empty callback nor the status callback. *)
Lemma starved_pass_without_callback :
  let s := sample_bot false [None; None; None] in
  let s' := bot_after (loop_body sample_config) s in
  loop_body sample_config s = Ok (Next, s') ∧
  state s' = PAUSED ∧
  occurrences is_fetch (trace s') = 3%nat ∧
  occurrences is_pause_transition (trace s') = 1%nat ∧
  occurrences is_chest_empty (trace s') = 0%nat ∧
  occurrences is_pause_status (trace s') = 0%nat ∧
  occurrences is_chest_empty (trace s') ≠ 1%nat.
Proof.
  intros s s'.
  split; [vm_compute; reflexivity|].
  split; [vm_compute; reflexivity|].
  split; [vm_compute; reflexivity|].
  split; [vm_compute; reflexivity|].
  split; [vm_compute; reflexivity|].
  split; [vm_compute; reflexivity|].
  vm_compute. discriminate.
Qed.

Lemma orange_always_discarded_witness :
  let s := sample_bot true [Some "ORANGE"; None; Some "ORANGE"; Some "ORANGE";
                            Some "RED"] in
  is_running s = true ∧ is_paused s = false ∧ should_stop s = false ∧
  is_complete (board s) = Ok (false, board s) ∧
  forallb (λ k, k <? Z.to_nat (MAX_CHEST_RETRIES sample_config))%nat [0; 1; 0]%nat
    = true ∧
  readings s = orange_readings [0; 1; 0]%nat ++ [Some "RED"] ∧
  ∃ s' evs,
    main_loop_passes sample_config 3 s = Ok (Next, s') ∧
    trace s' = trace s ++ evs ∧
    blocks_discarded (stats s') = 3 ∧
    blocks_placed (stats s') = 0 ∧
    board s' = board s.
Proof.
  intros s.
  split; [reflexivity|]. split; [reflexivity|]. split; [reflexivity|].
  split; [reflexivity|]. split; [reflexivity|]. split; [reflexivity|].
  destruct (orange_always_discarded sample_config s [0; 1; 0]%nat [Some "RED"]
              eq_refl eq_refl eq_refl eq_refl eq_refl eq_refl)
    as (s' & evs & Hrun & Htr & _ & _ & Hd & Hp & _ & _ & Hb & _).
  exists s', evs. by repeat split.
Defined.

(** ** Further properties of [mark_position_used] *)

Lemma py_get_cases {A} (l : list A) i :
  (∃ x, py_get l i = Ok x) ∨
  (py_get l i = Raise IndexError ∧ py_norm (length l) i = None).
Proof.
  unfold py_get. destruct (py_norm (length l) i) as [k|] eqn:E; simpl.
  - destruct (lookup_lt_is_Some_2 l k (py_norm_lt _ _ _ E)) as [x ->]. eauto.
  - by right.
Qed.

Lemma cell_at_cases g rc :
  (∃ x, cell_at g rc = Ok x) ∨ cell_at g rc = Raise IndexError.
Proof.
  unfold cell_at. destruct (py_get_cases g rc.1) as [[row ->]|[-> _]]; simpl.
  - destruct (py_get_cases row rc.2) as [[x ->]|[-> _]]; eauto.
  - by right.
Qed.

Lemma in_grid_false g rc : in_grid g rc = false ↔ cell_at g rc = Raise IndexError.
Proof.
  unfold in_grid. destruct (cell_at_cases g rc) as [[x ->]| ->]; done.
Qed.

Lemma write_cell_out_of_grid g rc v :
  in_grid g rc = false → write_cell g rc v = Raise IndexError.
Proof.
  unfold in_grid, cell_at, write_cell.
  destruct (py_get_cases g rc.1) as [[row ->]|[-> _]]; simpl; [|done].
  destruct (py_get_cases row rc.2) as [[x ->]|[-> Hn]]; simpl; [done|].
  intros _. unfold py_set. by rewrite Hn.
Qed.

Lemma in_grid_shape_eq g g' rc : shape g = shape g' → in_grid g rc = in_grid g' rc.
Proof.
  intros Hs. destruct (in_grid g rc) eqn:E.
  - symmetry. by apply (in_grid_shape g g').
  - destruct (in_grid g' rc) eqn:E'; [|done].
    apply (in_grid_shape g' g) in E'; [congruence|done].
Qed.

Lemma forallb_in_grid_shape g g' cs :
  shape g = shape g' → forallb (in_grid g) cs = forallb (in_grid g') cs.
Proof.
  intros Hs. induction cs as [|rc cs IH]; simpl; [done|].
  by rewrite IH, (in_grid_shape_eq g g' rc Hs).
Qed.

Lemma mark_cells_out_of_grid g cs T :
  forallb (in_grid g) cs = false → mark_cells g cs T = Raise IndexError.
Proof.
  revert g. induction cs as [|rc cs IH]; intros g; simpl; [done|].
  destruct (in_grid g rc) eqn:E; simpl.
  - intros Hcs. destruct (write_cell_total g rc (Some T) E) as [g1 Hg1].
    rewrite Hg1. simpl. apply IH.
    by rewrite <- (forallb_in_grid_shape g g1 cs)
      by (symmetry; by eapply write_cell_shape).
  - intros _. by rewrite write_cell_out_of_grid.
Qed.

(** X1. [mark_position_used] raises [IndexError] exactly when some cell of
    the slot lies outside the grid; otherwise it returns normally. *)
Theorem mark_position_used_raises (b : BoardState) (T : string) (pos : position) :
  (slot_in_grid (grid b) pos = false ↔
     mark_position_used T pos b = Raise IndexError) ∧
  (slot_in_grid (grid b) pos = true ↔
     ∃ b', mark_position_used T pos b = Ok (tt, b')).
Proof.
  rewrite mark_position_used_eq.
  destruct (slot_in_grid (grid b) pos) eqn:E.
  - destruct (mark_cells_spec (grid b) (cells pos) T E) as (g' & -> & _).
    simpl. split; split; try done. eauto.
  - rewrite (mark_cells_out_of_grid _ _ _ E). simpl.
    split; split; try done. intros [b' [=]].
Qed.

Lemma cell_at_index g rc x :
  cell_at g rc = Ok x ↔
  ∃ i j row, cell_index g rc = Some (i, j) ∧ g !! i = Some row ∧ row !! j = Some x.
Proof.
  rewrite cell_at_Ok. unfold cell_index. split.
  - intros (i & j & row & Hi & Hrow & Hj & Hx). exists i, j, row.
    rewrite Hi. simpl. rewrite Hrow. simpl. rewrite Hj. done.
  - intros (i & j & row & Hidx & Hrow & Hx).
    destruct (py_norm (length g) rc.1) as [i'|]; simpl in Hidx; [|done].
    destruct (g !! i') as [row'|] eqn:E; simpl in Hidx; [|done].
    destruct (py_norm (length row') rc.2) as [j'|] eqn:Ej; simpl in Hidx; [|done].
    injection Hidx as -> ->. assert (row' = row) as -> by congruence.
    by exists i, j, row.
Qed.

Lemma cell_index_shape g g' rc :
  shape g = shape g' → cell_index g rc = cell_index g' rc.
Proof.
  intros Hs. unfold cell_index. rewrite <- (shape_length _ _ Hs).
  destruct (py_norm (length g) rc.1) as [i|]; simpl; [|done].
  destruct (g !! i) as [row|] eqn:E; simpl.
  - destruct (shape_lookup _ _ _ _ Hs E) as (row' & -> & Hlen). simpl.
    by rewrite Hlen.
  - destruct (g' !! i) as [row'|] eqn:E'; simpl; [|done].
    destruct (shape_lookup g' g i row' (eq_sym Hs) E') as (? & ? & _).
    congruence.
Qed.

Lemma write_cell_index g rc v g' :
  write_cell g rc v = Ok g' →
  ∃ i j row, cell_index g rc = Some (i, j) ∧ g !! i = Some row ∧
    g' = <[i := <[j := v]> row]> g.
Proof.
  intros (i & j & row & Hi & Hrow & Hj & ->)%write_cell_Ok.
  exists i, j, row. unfold cell_index. rewrite Hi. simpl. rewrite Hrow. simpl.
  by rewrite Hj.
Qed.

Lemma cell_at_raise_shape g g' rc :
  shape g = shape g' → cell_at g rc = Raise IndexError →
  cell_at g' rc = Raise IndexError.
Proof.
  intros Hs H. apply in_grid_false. rewrite <- (in_grid_shape_eq g g' rc Hs).
  by apply in_grid_false.
Qed.

Lemma write_cell_frame g rc v g' rc' :
  write_cell g rc v = Ok g' →
  cell_index g rc' ≠ cell_index g rc →
  cell_at g' rc' = cell_at g rc'.
Proof.
  intros Hw Hne.
  pose proof (write_cell_shape _ _ _ _ Hw) as Hs.
  destruct (write_cell_index _ _ _ _ Hw) as (i & j & row & Hidx & Hrow & ->).
  destruct (cell_at_cases g rc') as [[x Hx]|Hx]; rewrite Hx.
  - apply cell_at_index in Hx as (i' & j' & row' & Hidx' & Hrow' & Hx).
    apply cell_at_index.
    rewrite (cell_index_shape _ g rc') by done. rewrite Hidx'.
    destruct (decide (i = i')) as [<-|Hi].
    + assert (row' = row) as -> by congruence.
      exists i, j', (<[j := v]> row). split; [done|]. split.
      * apply list_lookup_insert_eq. eapply lookup_lt_Some; eauto.
      * rewrite list_lookup_insert_ne; [done|]. intros ->. congruence.
    + exists i', j', row'. split; [done|].
      by rewrite list_lookup_insert_ne.
  - by apply (cell_at_raise_shape g).
Qed.

Lemma mark_cells_frame g cs T g' rc' :
  mark_cells g cs T = Ok g' →
  cell_index g rc' ∉ (cell_index g <$> cs) →
  cell_at g' rc' = cell_at g rc'.
Proof.
  revert g. induction cs as [|rc cs IH]; intros g; simpl.
  - by intros [= <-].
  - destruct (write_cell g rc (Some T)) as [g1| |] eqn:Hw; simpl; try done.
    intros Hm Hnot.
    pose proof (write_cell_shape _ _ _ _ Hw) as Hs.
    rewrite (IH g1 Hm).
    + apply (write_cell_frame _ _ _ _ _ Hw). intros Heq. apply Hnot.
      rewrite Heq. left.
    + rewrite (cell_index_shape g1 g rc') by done.
      assert (cell_index g1 <$> cs = cell_index g <$> cs) as ->
        by (apply list_fmap_ext; intros; by apply cell_index_shape).
      intros Hin. apply Hnot. by right.
Qed.

(** X2. A commit touches the cells of its slot only: the grid keeps its
    shape, and every index pair that denotes another cell than those of the
    slot reads the same before and after [mark_position_used]. *)
Theorem mark_position_used_frame (b : BoardState) (T : string) (pos : position) :
  slot_in_grid (grid b) pos = true →
  ∃ b', mark_position_used T pos b = Ok (tt, b') ∧
    (length <$> grid b') = (length <$> grid b) ∧
    ∀ rc, cell_index (grid b) rc ∉ (cell_index (grid b) <$> cells pos) →
      cell_at (grid b') rc = cell_at (grid b) rc.
Proof.
  intros Hin. rewrite mark_position_used_eq.
  destruct (mark_cells_spec (grid b) (cells pos) T Hin) as (g' & Hm & Hs & _).
  rewrite Hm. simpl. eexists. split; [done|]. simpl. split; [exact Hs|].
  intros rc Hrc. by apply (mark_cells_frame _ _ _ _ _ Hm).
Qed.

(** ** Commits and the number of empty cells *)

Lemma filter_insert_bounds {A} (P : A → Prop) `{∀ x, Decision (P x)}
    (l : list A) (j : nat) (x : A) :
  ¬ P x →
  (length (filter P (<[j := x]> l)) ≤ length (filter P l)
   ≤ S (length (filter P (<[j := x]> l))))%nat.
Proof.
  intros Hx. revert j. induction l as [|a l IH]; intros j; simpl; [lia|].
  destruct j as [|j]; simpl.
  - rewrite !filter_cons. rewrite (decide_False (P:=P x)) by done.
    case_decide; simpl; lia.
  - rewrite !filter_cons. specialize (IH j). case_decide; simpl; lia.
Qed.

Lemma filter_insert_exact {A} (P : A → Prop) `{∀ x, Decision (P x)}
    (l : list A) (j : nat) (x y : A) :
  ¬ P x → l !! j = Some y → P y →
  length (filter P l) = S (length (filter P (<[j := x]> l))).
Proof.
  intros Hx. revert j. induction l as [|a l IH]; intros j; simpl; [done|].
  destruct j as [|j]; simpl.
  - intros [= ->] Hy. rewrite !filter_cons.
    rewrite (decide_False (P:=P x)) by done.
    by rewrite (decide_True (P:=P y)) by done.
  - intros Hj Hy. rewrite !filter_cons. specialize (IH j Hj Hy).
    case_decide; simpl; lia.
Qed.

Lemma concat_insert_middle {A} (g : list (list A)) i row row' :
  g !! i = Some row →
  concat g = concat (take i g) ++ row ++ concat (drop (S i) g) ∧
  concat (<[i := row']> g) = concat (take i g) ++ row' ++ concat (drop (S i) g).
Proof.
  intros Hrow. split.
  - rewrite <- (take_drop_middle g i row Hrow) at 1.
    by rewrite concat_app, concat_cons.
  - rewrite insert_take_drop by (eapply lookup_lt_Some; eauto).
    by rewrite concat_app, concat_cons.
Qed.

Lemma write_cell_empty_bounds g rc t g' :
  write_cell g rc (Some t) = Ok g' →
  cells_empty g - 1 ≤ cells_empty g' ≤ cells_empty g.
Proof.
  intros (i & j & row & _ & Hrow & ->)%write_cell_index.
  unfold cells_empty.
  destruct (concat_insert_middle g i row (<[j := Some t]> row) Hrow) as [-> ->].
  rewrite !filter_app, !length_app.
  assert (Hsome : Some t ≠ (None : option string)) by done.
  pose proof (filter_insert_bounds (λ c : option string, c = None) row j (Some t)
                Hsome).
  lia.
Qed.

Lemma write_cell_empty_exact g rc t g' :
  write_cell g rc (Some t) = Ok g' → cell_at g rc = Ok None →
  cells_empty g' = cells_empty g - 1.
Proof.
  intros Hw (i' & j' & row' & Hidx' & Hrow' & Hx)%cell_at_index.
  destruct (write_cell_index _ _ _ _ Hw) as (i & j & row & Hidx & Hrow & ->).
  assert (i' = i ∧ j' = j) as [-> ->] by (split; congruence).
  assert (row' = row) as -> by congruence.
  unfold cells_empty.
  destruct (concat_insert_middle g i row (<[j := Some t]> row) Hrow) as [-> ->].
  rewrite !filter_app, !length_app.
  assert (Hsome : Some t ≠ (None : option string)) by done.
  pose proof (filter_insert_exact (λ c : option string, c = None) row j
                (Some t) None Hsome Hx eq_refl).
  lia.
Qed.

Lemma mark_cells_empty_bounds g cs T g' :
  mark_cells g cs T = Ok g' →
  cells_empty g - Z.of_nat (length cs) ≤ cells_empty g' ≤ cells_empty g.
Proof.
  revert g. induction cs as [|rc cs IH]; intros g; simpl.
  - intros [= <-]. lia.
  - destruct (write_cell g rc (Some T)) as [g1| |] eqn:Hw; simpl; try done.
    intros Hm. specialize (IH g1 Hm).
    pose proof (write_cell_empty_bounds _ _ _ _ Hw). lia.
Qed.

Lemma mark_cells_empty_exact g cs T g' :
  mark_cells g cs T = Ok g' →
  Forall (λ rc, cell_at g rc = Ok None) cs →
  NoDup (cell_index g <$> cs) →
  cells_empty g' = cells_empty g - Z.of_nat (length cs).
Proof.
  revert g. induction cs as [|rc cs IH]; intros g; simpl.
  - intros [= <-]. lia.
  - destruct (write_cell g rc (Some T)) as [g1| |] eqn:Hw; simpl; try done.
    intros Hm Hfree Hnd.
    inversion Hfree as [|? ? Hrc Hcs]; subst.
    apply NoDup_cons in Hnd as [Hnotin Hnd].
    pose proof (write_cell_shape _ _ _ _ Hw) as Hs.
    assert (Hext : cell_index g1 <$> cs = cell_index g <$> cs)
      by (apply list_fmap_ext; intros; by apply cell_index_shape).
    rewrite (IH g1 Hm).
    + rewrite (write_cell_empty_exact _ _ _ _ Hw Hrc). lia.
    + apply Forall_forall. intros rc' Hrc'.
      rewrite (write_cell_frame _ _ _ _ rc' Hw).
      * rewrite Forall_forall in Hcs. by apply Hcs.
      * intros Heq. apply Hnotin. rewrite <- Heq.
        apply list_elem_of_fmap. eauto.
    + by rewrite Hext.
Qed.

(** X3. A commit never frees a cell and fills at most as many cells as the
    slot lists: if the cells of the slot lie in the grid, the number of
    empty cells that [get_empty_count] reports after
    [mark_position_used] is at most the number before and at least that
    number less the length of the cell list. *)
Theorem mark_position_used_empty_count (b : BoardState) (T : string)
    (pos : position) :
  slot_in_grid (grid b) pos = true →
  ∃ b' n n',
    mark_position_used T pos b = Ok (tt, b') ∧
    get_empty_count b = Ok (n, b) ∧
    get_empty_count b' = Ok (n', b') ∧
    n - Z.of_nat (length (cells pos)) ≤ n' ≤ n.
Proof.
  intros Hin. rewrite mark_position_used_eq.
  destruct (mark_cells_spec (grid b) (cells pos) T Hin) as (g' & Hm & _).
  rewrite Hm. simpl. eexists. exists (cells_empty (grid b)), (cells_empty g').
  split; [done|]. rewrite !get_empty_count_run. simpl.
  split; [done|]. split; [done|].
  by apply (mark_cells_empty_bounds _ _ T).
Qed.

Lemma scan_positions_Some b ps pos :
  scan_positions b ps = Ok (Some pos) → pos ∈ ps ∧ available b pos.
Proof.
  induction ps as [|p ps IH]; simpl; [done|].
  case_bool_decide as Hused.
  - intros H. destruct (IH H). split; [by right|done].
  - destruct (all_free (grid b) (cells p)) as [[|]| |] eqn:Hf; simpl; try done.
    + intros [= ->]. split; [left|]. split; [done|]. by apply all_free_true.
    + intros H. destruct (IH H). split; [by right|done].
Qed.

Lemma get_next_position_Some cfg T b pos b0 :
  get_next_position cfg T b = Ok (Some pos, b0) →
  b0 = b ∧ pos ∈ candidates cfg T ∧ available b pos.
Proof.
  unfold get_next_position.
  destruct (scan_positions b (candidates cfg T)) as [r| |] eqn:E; simpl; try done.
  intros [= -> <-]. split; [done|]. by apply scan_positions_Some.
Qed.

Lemma available_in_grid b pos : available b pos → slot_in_grid (grid b) pos = true.
Proof.
  intros [_ Hc]. unfold slot_in_grid. apply forallb_forall.
  intros rc Hrc%list_elem_of_In. rewrite Forall_forall in Hc.
  apply in_grid_true. eauto.
Qed.

(** X4. Committing the slot that [get_next_position] has just offered fills
    exactly the cells of the slot: when the index pairs of the slot denote
    pairwise different cells, [get_empty_count] drops by the length of the
    cell list. *)
Theorem offered_slot_fills_its_cells (cfg : config) (b : BoardState)
    (T : string) (pos : position) :
  get_next_position cfg T b = Ok (Some pos, b) →
  distinct_cells (grid b) pos = true →
  ∃ b' n,
    mark_position_used T pos b = Ok (tt, b') ∧
    get_empty_count b = Ok (n, b) ∧
    get_empty_count b' = Ok (n - Z.of_nat (length (cells pos)), b').
Proof.
  intros (_ & _ & Hav)%get_next_position_Some Hnd.
  apply bool_decide_eq_true in Hnd.
  pose proof (available_in_grid _ _ Hav) as Hin.
  rewrite mark_position_used_eq.
  destruct (mark_cells_spec (grid b) (cells pos) T Hin) as (g' & Hm & _).
  rewrite Hm. simpl. eexists. exists (cells_empty (grid b)).
  split; [done|]. rewrite !get_empty_count_run. simpl. split; [done|].
  destruct Hav as [_ Hfree].
  by rewrite (mark_cells_empty_exact _ _ _ _ Hm Hfree Hnd).
Qed.

(** X5. Every commit whose slot lies in the grid raises the total that
    [get_total_placed] reports by exactly one, whatever the type and
    whether or not the slot was free. *)
Theorem mark_position_used_total (b : BoardState) (T : string) (pos : position) :
  slot_in_grid (grid b) pos = true →
  ∃ b' n,
    mark_position_used T pos b = Ok (tt, b') ∧
    get_total_placed b = Ok (n, b) ∧
    get_total_placed b' = Ok (n + 1, b').
Proof.
  intros Hin. destruct (mark_position_used_run T pos b Hin) as (g' & _ & ->).
  eexists. exists (total (placed_counts b)). split; [done|]. split; [done|].
  unfold get_total_placed, gets. simpl. do 2 f_equal.
  unfold placed_count. apply total_incr.
Qed.

(** ** Further properties of [update_from_scan] *)

Lemma scan_lookup cfg g b T :
  placed_counts (board_after (update_from_scan cfg g) b) !! T
  = match BLOCK_LIMITS cfg !! T with
    | Some _ => Some ((cells_labelled g T + size_of T - 1) `div` size_of T)
    | None => placed_counts b !! T
    end.
Proof.
  unfold board_after. rewrite update_from_scan_run. simpl.
  rewrite (recount_lookup (λ T n, (n + size_of T - 1) `div` size_of T)).
  rewrite count_cells_lookup. by destruct (BLOCK_LIMITS cfg !! T).
Qed.

Lemma update_from_scan_after cfg g b :
  update_from_scan cfg g b = Ok (tt, board_after (update_from_scan cfg g) b).
Proof. unfold board_after. by rewrite update_from_scan_run. Qed.

Lemma cells_labelled_nonneg g T : 0 ≤ cells_labelled g T.
Proof. unfold cells_labelled. lia. Qed.

(** X6. A rescan overwrites an earlier rescan completely: scanning [g1] and
    then [g2] leaves the same board as scanning [g2] alone; in particular
    scanning the same grid twice is the same as scanning it once. *)
Theorem update_from_scan_last_wins (cfg : config) (b : BoardState)
    (g1 g2 : list (list (option string))) :
  (update_from_scan cfg g1;; update_from_scan cfg g2) b
  = update_from_scan cfg g2 b.
Proof.
  assert (H : (update_from_scan cfg g1;; update_from_scan cfg g2) b
              = update_from_scan cfg g2 (board_after (update_from_scan cfg g1) b)).
  { unfold board_after. unfold mbind at 1. unfold M_bind.
    rewrite (update_from_scan_run cfg g1 b). reflexivity. }
  rewrite H, !update_from_scan_after. do 2 f_equal.
  pose proof (scan_lookup cfg g2 (board_after (update_from_scan cfg g1) b)) as H1.
  pose proof (scan_lookup cfg g2 b) as H2.
  pose proof (scan_lookup cfg g1 b) as H0.
  unfold board_after in *. rewrite !update_from_scan_run in *. simpl in *.
  f_equal. apply map_eq. intros T. rewrite H1, H2, H0.
  by destruct (BLOCK_LIMITS cfg !! T).
Qed.

(** X7. [update_from_scan] recounts only the types that have an entry in
    [BLOCK_LIMITS]: the placed count of any other type -- left by an earlier
    commit of that type -- survives the rescan unchanged, however many cells
    of the scan carry that label. *)
Theorem update_from_scan_unknown_type (cfg : config) (b : BoardState)
    (g : list (list (option string))) (T : string) :
  BLOCK_LIMITS cfg !! T = None →
  ∃ b', update_from_scan cfg g b = Ok (tt, b') ∧
    placed_counts b' !! T = placed_counts b !! T.
Proof.
  intros HT. eexists. split; [apply update_from_scan_after|].
  by rewrite scan_lookup, HT.
Qed.

(** X8. The recount rounds up: for a type with an entry in [BLOCK_LIMITS],
    the placed count after [update_from_scan] is zero exactly when no cell
    of the scan carries the label, and otherwise lies between one and the
    number of such cells -- a single leftover cell counts as one block. *)
Theorem update_from_scan_rounds_up (cfg : config) (b : BoardState)
    (g : list (list (option string))) (T : string) (q : Z) :
  BLOCK_LIMITS cfg !! T = Some q →
  ∃ b', update_from_scan cfg g b = Ok (tt, b') ∧
    (placed_count b' T = 0 ↔ cells_labelled g T = 0) ∧
    (1 ≤ cells_labelled g T → 1 ≤ placed_count b' T ≤ cells_labelled g T).
Proof.
  intros HT. eexists. split; [apply update_from_scan_after|].
  unfold placed_count. rewrite scan_lookup, HT. simpl.
  pose proof (size_of_pos T) as Hs.
  pose proof (cells_labelled_nonneg g T) as Hk.
  pose proof (Z.div_mod (cells_labelled g T + size_of T - 1) (size_of T)).
  pose proof (Z.mod_pos_bound (cells_labelled g T + size_of T - 1) (size_of T)).
  split; [split|]; intros; nia.
Qed.

(** ** Boards reached by the operations *)

Lemma counts_nonneg_init cfg : counts_nonneg (BoardState_init cfg).
Proof. intros T. by rewrite placed_count_init. Qed.

Lemma run_op_nonneg cfg o b b' :
  counts_nonneg b → run_op cfg o b = Ok (tt, b') → counts_nonneg b'.
Proof.
  intros Hb. destruct o as [|T pos|g]; simpl.
  - rewrite reset_run. intros [= <-]. apply counts_nonneg_init.
  - rewrite mark_position_used_eq.
    destruct (mark_cells (grid b) (cells pos) T) as [g'| |]; simpl; try done.
    intros [= <-] T'. destruct (decide (T = T')) as [<-|Hne].
    + rewrite placed_count_insert_eq. specialize (Hb T). lia.
    + rewrite placed_count_insert_ne by done. apply Hb.
  - rewrite update_from_scan_after. intros [= <-] T.
    unfold placed_count. rewrite scan_lookup.
    destruct (BLOCK_LIMITS cfg !! T); simpl; [|apply Hb].
    pose proof (size_of_pos T). pose proof (cells_labelled_nonneg g T).
    apply Z.div_pos; lia.
Qed.

Lemma run_ops_nonneg cfg os b b' :
  counts_nonneg b → run_ops cfg os b = Ok (tt, b') → counts_nonneg b'.
Proof.
  revert b. induction os as [|o os IH]; intros b Hb; simpl.
  - by intros [= <-].
  - run_method. destruct (run_op cfg o b) as [[[] b1]| |] eqn:E; simpl; try done.
    intros Hrun. apply (IH b1); [|done]. by apply (run_op_nonneg cfg o b).
Qed.

(** X9. On every board that resets, commits and rescans lead to from a new
    board, no placed count is negative; hence [can_place_block] answers
    [False] there for every type whose limit is zero, negative or missing,
    whatever was committed or scanned. *)
Theorem never_placeable_without_limit (cfg : config) (os : list board_op)
    (b' : BoardState) (T : string) :
  run_ops cfg os (BoardState_init cfg) = Ok (tt, b') →
  limit_of cfg T ≤ 0 →
  0 ≤ placed_count b' T ∧
  can_place_block cfg T b' = Ok (false, b').
Proof.
  intros Hrun Hlim.
  pose proof (run_ops_nonneg cfg os _ _ (counts_nonneg_init cfg) Hrun T) as Hn.
  split; [done|]. rewrite can_place_block_run.
  by rewrite bool_decide_eq_false_2 by lia.
Qed.

(** ** Slots are handed out once and in list order *)

Lemma all_free_false_total g cs :
  forallb (in_grid g) cs = true →
  ¬ Forall (λ rc, cell_at g rc = Ok None) cs →
  all_free g cs = Ok false.
Proof.
  intros Hin Hn. destruct (all_free_total g cs Hin) as [[|] Hf]; [|done].
  by apply all_free_true in Hf.
Qed.

Lemma scan_positions_skip b l1 rest :
  forallb (slot_in_grid (grid b)) l1 = true →
  Forall (λ p, ¬ available b p) l1 →
  scan_positions b (l1 ++ rest) = scan_positions b rest.
Proof.
  induction l1 as [|p l1 IH]; simpl; [done|].
  intros [Hp Hl1]%andb_true_iff Hna.
  change (forallb (slot_in_grid (grid b)) l1 = true) in Hl1.
  inversion Hna as [|? ? Hnp Hna']; subst.
  case_bool_decide as Hused; [by apply IH|].
  rewrite (all_free_false_total _ _ Hp).
  - simpl. by apply IH.
  - intros Hfree. apply Hnp. by split.
Qed.

Lemma available_before_commit b T pos g' pc p :
  slot_in_grid (grid b) pos = true →
  mark_cells (grid b) (cells pos) T = Ok g' →
  available (mkBoardState g' pc (used_positions b ∪ {[id pos]})) p →
  available b p ∧ id p ≠ id pos.
Proof.
  intros Hin Hm [Hid Hcells]. simpl in *.
  destruct (mark_cells_spec (grid b) (cells pos) T Hin) as (g1 & Hm1 & Hs & _ & Hout).
  assert (g1 = g') as -> by congruence.
  split; [split|].
  - set_solver.
  - apply Forall_forall. intros rc Hrc. rewrite Forall_forall in Hcells.
    specialize (Hcells rc Hrc).
    destruct (cell_at_cases (grid b) rc) as [[x Hx]|Hx].
    + destruct (Hout rc x Hx) as [H|H]; congruence.
    + apply (cell_at_raise_shape _ g') in Hx; [congruence|done].
  - intros Heq. apply Hid. rewrite Heq. set_solver.
Qed.

(** X10. Slots are handed out in list order and never twice: after the slot
    that [get_next_position] offered for a type is committed, the next
    offer for that type is a slot further down the candidate list, with
    another identifier, or none at all. *)
Theorem next_offer_is_further_down (cfg : config) (b : BoardState)
    (T : string) (pos : position) :
  get_next_position cfg T b = Ok (Some pos, b) →
  slots_in_grid cfg (grid b) T = true →
  ∃ b' r l1 l2,
    mark_position_used T pos b = Ok (tt, b') ∧
    get_next_position cfg T b' = Ok (r, b') ∧
    candidates cfg T = l1 ++ pos :: l2 ∧
    ∀ p, r = Some p → p ∈ l2 ∧ id p ≠ id pos.
Proof.
  intros Hoffer Hin. unfold slots_in_grid in Hin.
  destruct (scan_positions_spec b _ Hin) as (r0 & Hr0 & Hspec).
  assert (r0 = Some pos) as ->.
  { unfold get_next_position in Hoffer. rewrite Hr0 in Hoffer. simpl in Hoffer.
    congruence. }
  destruct Hspec as (l1 & l2 & Hsplit & Hl1 & Hav).
  pose proof (available_in_grid _ _ Hav) as Hpos.
  rewrite mark_position_used_eq.
  destruct (mark_cells_spec (grid b) (cells pos) T Hpos) as (g' & Hm & Hs & _).
  rewrite Hm. simpl.
  set (b' := {| grid := g';
                placed_counts := <[T := placed_count b T + 1]> (placed_counts b);
                used_positions := used_positions b ∪ {[id pos]} |}).
  assert (Hin' : forallb (slot_in_grid (grid b')) (candidates cfg T) = true).
  { apply forallb_forall. intros p Hp. unfold slot_in_grid.
    rewrite (forallb_in_grid_shape g' (grid b)) by done.
    rewrite forallb_forall in Hin. by apply Hin. }
  rewrite Hsplit in Hin'.
  rewrite forallb_app in Hin'. apply andb_true_iff in Hin' as [Hin1 Hin2].
  simpl in Hin2. apply andb_true_iff in Hin2 as [_ Hin2].
  change (forallb (slot_in_grid g') l2 = true) in Hin2.
  destruct (scan_positions_spec b' l2 Hin2) as (r & Hr & Hspec').
  exists b', r, l1, l2. split; [done|]. split; [|split; [done|]].
  - unfold get_next_position. rewrite Hsplit.
    rewrite (scan_positions_skip b' l1 (pos :: l2) Hin1).
    + simpl. rewrite bool_decide_eq_true_2 by set_solver.
      by rewrite Hr.
    + apply Forall_forall. intros p Hp Hav'. rewrite Forall_forall in Hl1.
      apply (Hl1 p Hp).
      by destruct (available_before_commit b T pos g' _ p Hpos Hm Hav').
  - intros p ->. destruct Hspec' as (l1' & l2' & -> & _ & Hav').
    split; [apply elem_of_app; right; left|].
    by destruct (available_before_commit b T pos g' _ p Hpos Hm Hav').
Qed.

(** X11. A rescan does not release a consumed slot: after a slot is
    committed and the board is rescanned -- even from a scan that shows its
    cells empty -- [get_next_position] never offers a slot with that
    identifier, for any type; the identifier stays in the consumed set. *)
Theorem rescan_keeps_slot_consumed (cfg : config) (b : BoardState)
    (T : string) (pos : position) (g : list (list (option string))) :
  slot_in_grid (grid b) pos = true →
  ∃ b', (mark_position_used T pos;; update_from_scan cfg g) b = Ok (tt, b') ∧
    grid b' = g ∧
    id pos ∈ used_positions b' ∧
    ∀ T' r b'', get_next_position cfg T' b' = Ok (Some r, b'') → id r ≠ id pos.
Proof.
  intros Hin. destruct (mark_position_used_run T pos b Hin) as (g' & _ & Hrun).
  eexists. split.
  { unfold mbind at 1. unfold M_bind. rewrite Hrun. simpl.
    apply update_from_scan_run. }
  simpl. split; [done|]. split; [set_solver|].
  intros T' r b'' (_ & _ & [Hid _])%get_next_position_Some. simpl in Hid.
  intros Heq. apply Hid. rewrite Heq. set_solver.
Qed.

Lemma all_free_off_grid g rc rest :
  in_grid g rc = false → all_free g (rc :: rest) = Raise IndexError.
Proof. intros H%in_grid_false. simpl. by rewrite H. Qed.

(** X12. [get_next_position] does not check bounds: when all candidates
    before some slot are consumed, that slot is not, and its first cell
    lies outside the grid (as after a scan with too few rows), the call
    raises [IndexError]. *)
Theorem get_next_position_off_grid (cfg : config) (b : BoardState) (T : string)
    (l1 l2 : list position) (pos : position) (rc : Z * Z) (rest : list (Z * Z)) :
  candidates cfg T = l1 ++ pos :: l2 →
  forallb (λ p, bool_decide (id p ∈ used_positions b)) l1 = true →
  bool_decide (id pos ∈ used_positions b) = false →
  cells pos = rc :: rest →
  in_grid (grid b) rc = false →
  get_next_position cfg T b = Raise IndexError.
Proof.
  intros Hsplit Hl1 Hpos Hcells Hrc. unfold get_next_position. rewrite Hsplit.
  assert (Hskip : scan_positions b (l1 ++ pos :: l2) = scan_positions b (pos :: l2)).
  { clear Hsplit. induction l1 as [|p l1 IH]; [done|]. simpl in *.
    apply andb_true_iff in Hl1 as [Hp Hl1]. rewrite Hp. by apply IH. }
  rewrite Hskip. simpl. rewrite Hpos, Hcells.
  by rewrite (all_free_off_grid _ _ _ Hrc).
Qed.

(** ** Further properties of the worker: fetching *)

Lemma first_detected_nil n : first_detected n [] = None.
Proof. unfold first_detected. by rewrite take_nil. Qed.

Lemma first_detected_Some n t rd : first_detected (S n) (Some t :: rd) = Some t.
Proof. reflexivity. Qed.

Lemma first_detected_None n rd :
  first_detected (S n) (None :: rd) = first_detected n rd.
Proof. reflexivity. Qed.

Lemma fetch_attempts_any n :
  ∀ sta ir ip ss sts bd scb oce rd tr,
    ∃ sta' rd' evs,
      fetch_attempts n (mkBot sta ir ip ss sts bd scb oce rd tr)
      = Ok (first_detected n rd,
            mkBot sta' ir ip ss sts bd scb oce rd' (tr ++ evs)) ∧
      Forall (λ e, quiet e = true) evs ∧
      occurrences is_confirm evs = 0%nat ∧
      occurrences is_detect evs = occurrences is_fetch evs ∧
      (occurrences is_fetch evs ≤ n)%nat ∧
      (first_detected n rd = None → occurrences is_fetch evs = n) ∧
      (first_detected n rd ≠ None → (1 ≤ occurrences is_fetch evs)%nat).
Proof.
  induction n as [|n IH]; intros sta ir ip ss sts bd scb oce rd tr.
  - exists sta, rd, []. simpl. rewrite app_nil_r.
    repeat split; done.
  - cbn [fetch_attempts]. unfold emit, detect, set_trace, set_readings.
    run_method. rewrite update_status_run. simpl.
    set (pre := [FetchNewBlock; Sleep (DELAYS "detection_wait")] ++
                (Transition DETECTING ::
                   (if scb then [StatusCallback "Rozpoznaję..." sts] else [])) ++
                [DetectAtParking]).
    assert (Hpre : Forall (λ e, quiet e = true) pre ∧
                   occurrences is_confirm pre = 0%nat ∧
                   occurrences is_detect pre = 1%nat ∧
                   occurrences is_fetch pre = 1%nat).
    { unfold pre. destruct scb; simpl; repeat split; repeat constructor. }
    destruct Hpre as (Hq & Hc & Hd & Hf).
    assert (Hrec : ∀ rd0,
      ∃ sta' rd' evs,
        fetch_attempts n
          (mkBot DETECTING ir ip ss sts bd scb oce rd0
             (((((tr ++ [FetchNewBlock]) ++ [Sleep (DELAYS "detection_wait")]) ++
                Transition DETECTING ::
                  (if scb then [StatusCallback "Rozpoznaję..." sts] else [])) ++
               [DetectAtParking]) ++ [Sleep (DELAYS "retry_delay")]))
        = Ok (first_detected n rd0,
              mkBot sta' ir ip ss sts bd scb oce rd' (tr ++ evs)) ∧
        Forall (λ e, quiet e = true) evs ∧
        occurrences is_confirm evs = 0%nat ∧
        occurrences is_detect evs = occurrences is_fetch evs ∧
        (occurrences is_fetch evs ≤ S n)%nat ∧
        (first_detected n rd0 = None → occurrences is_fetch evs = S n) ∧
        (1 ≤ occurrences is_fetch evs)%nat).
    { intros rd0.
      edestruct (IH DETECTING ir ip ss sts bd scb oce rd0)
        as (sta' & rd' & evs & Hrun & Hq' & Hc' & Hd' & Hle & Hnone & _).
      exists sta', rd', (pre ++ [Sleep (DELAYS "retry_delay")] ++ evs).
      split; [|split; [|split; [|split; [|split; [|split]]]]].
      - rewrite Hrun. do 3 f_equal. unfold pre.
        repeat (rewrite <- app_assoc; simpl). done.
      - apply Forall_app. split; [exact Hq|].
        apply Forall_app. split; [repeat constructor|exact Hq'].
      - rewrite !occurrences_app, Hc, Hc'. done.
      - rewrite !occurrences_app, Hd, Hf, Hd'. simpl. lia.
      - rewrite !occurrences_app, Hf. simpl. lia.
      - intros H. rewrite !occurrences_app, Hf, (Hnone H). simpl. lia.
      - rewrite !occurrences_app, Hf. simpl. lia. }
    destruct rd as [|[t|] rd]; simpl.
    + destruct (Hrec []) as (sta' & rd' & evs & Hrun & Hq' & Hc' & Hd' & Hle & Hn & H1).
      exists sta', rd', evs. rewrite first_detected_nil in *.
      by repeat split.
    + exists DETECTING, rd, pre. rewrite first_detected_Some.
      split; [|split; [|split; [|split; [|split; [|split]]]]]; try done.
      * do 3 f_equal. unfold pre. repeat (rewrite <- app_assoc; simpl). done.
      * rewrite Hd, Hf. done.
      * rewrite Hf. lia.
      * rewrite Hf. lia.
    + destruct (Hrec rd) as (sta' & rd' & evs & Hrun & Hq' & Hc' & Hd' & Hle & Hn & H1).
      exists sta', rd', evs. rewrite first_detected_None.
      by repeat split.
Qed.

Lemma fetch_block_any cfg sta ir ip ss sts bd scb oce rd tr :
  ∃ sta' rd' evs,
    _fetch_block cfg (mkBot sta ir ip ss sts bd scb oce rd tr)
    = Ok (first_detected (Z.to_nat (MAX_CHEST_RETRIES cfg)) rd,
          mkBot sta' ir ip ss sts bd scb oce rd' (tr ++ evs)) ∧
    occurrences is_pause_transition evs = 0%nat ∧
    occurrences is_place evs = 0%nat ∧
    occurrences is_discard evs = 0%nat ∧
    occurrences is_confirm evs = 0%nat ∧
    occurrences is_detect evs = occurrences is_fetch evs ∧
    (occurrences is_fetch evs ≤ Z.to_nat (MAX_CHEST_RETRIES cfg))%nat ∧
    (first_detected (Z.to_nat (MAX_CHEST_RETRIES cfg)) rd = None →
       occurrences is_fetch evs = Z.to_nat (MAX_CHEST_RETRIES cfg) ∧
       occurrences is_chest_empty evs = (if oce then 1 else 0)%nat) ∧
    (first_detected (Z.to_nat (MAX_CHEST_RETRIES cfg)) rd ≠ None →
       (1 ≤ occurrences is_fetch evs)%nat ∧
       occurrences is_chest_empty evs = 0%nat).
Proof.
  unfold _fetch_block. run_method. rewrite update_status_run. simpl.
  edestruct (fetch_attempts_any (Z.to_nat (MAX_CHEST_RETRIES cfg))
               FETCHING ir ip ss sts bd scb oce rd)
    as (sta' & rd' & evs & Hrun & Hq & Hc & Hd & Hle & Hnone & Hsome).
  rewrite Hrun. simpl.
  destruct (quiet_occurrences evs Hq) as (Q1 & Q2 & Q3 & Q4 & Q5).
  set (pre := Transition FETCHING ::
                (if scb then [StatusCallback "Pobieram klocek..." sts] else [])).
  destruct (first_detected (Z.to_nat (MAX_CHEST_RETRIES cfg)) rd) as [t|] eqn:E.
  - simpl. exists sta', rd', (pre ++ evs). split.
    { do 3 f_equal. unfold pre. repeat (rewrite <- app_assoc; simpl). done. }
    rewrite !occurrences_app, Q1, Q2, Q3, Q4, Hc, Hd.
    unfold pre. destruct scb; simpl; repeat split; try done; try lia.
    all: by apply Hsome.
  - simpl. unfold emit, set_trace. run_method.
    exists sta', rd', (pre ++ evs ++ (if oce then [ChestEmpty] else [])). split.
    { destruct oce; simpl; do 3 f_equal; unfold pre;
        repeat (rewrite <- app_assoc; simpl); by rewrite ?app_nil_r. }
    rewrite !occurrences_app, Q1, Q2, Q3, Q4, Hc, Hd, (Hnone eq_refl).
    unfold pre. destruct scb, oce; simpl; repeat split; try done; lia.
Qed.

(** X13. [_fetch_block] always returns, after at most [MAX_CHEST_RETRIES]
    fetches, each followed by one detection: it returns the first block the
    detector reports within that many readings, or [None] -- after exactly
    that many fetches -- when it reports none.  It places and discards
    nothing and leaves the board, the statistics and the three flags
    alone. *)
Theorem fetch_block_bounded (cfg : config) (s : Bot) :
  ∃ s' evs,
    _fetch_block cfg s
    = Ok (first_detected (Z.to_nat (MAX_CHEST_RETRIES cfg)) (readings s), s') ∧
    trace s' = trace s ++ evs ∧
    (occurrences is_fetch evs ≤ Z.to_nat (MAX_CHEST_RETRIES cfg))%nat ∧
    occurrences is_detect evs = occurrences is_fetch evs ∧
    (first_detected (Z.to_nat (MAX_CHEST_RETRIES cfg)) (readings s) = None →
       occurrences is_fetch evs = Z.to_nat (MAX_CHEST_RETRIES cfg)) ∧
    occurrences is_place evs = 0%nat ∧
    occurrences is_discard evs = 0%nat ∧
    board s' = board s ∧ stats s' = stats s ∧
    is_running s' = is_running s ∧ is_paused s' = is_paused s ∧
    should_stop s' = should_stop s.
Proof.
  destruct s as [sta ir ip ss sts bd scb oce rd tr].
  destruct (fetch_block_any cfg sta ir ip ss sts bd scb oce rd tr)
    as (sta' & rd' & evs & Hrun & _ & P & D & _ & Hd & Hle & Hnone & _).
  eexists. exists evs. split; [exact Hrun|]. simpl.
  repeat split; try done. intros H. by apply Hnone.
Qed.

(** ** Further properties of the worker: placing *)

Lemma place_block_run cfg t sta ir ip ss sts bd scb oce rd tr :
  _place_block cfg t (mkBot sta ir ip ss sts bd scb oce rd tr)
  = if bool_decide (placed_count bd t < limit_of cfg t) then
      match scan_positions bd (candidates cfg t) with
      | Ok None => Ok (false, mkBot sta ir ip ss sts bd scb oce rd tr)
      | Ok (Some pos) =>
          match mark_cells (grid bd) (cells pos) t with
          | Ok g' =>
              Ok (true,
                  mkBot PLACING ir ip ss
                    (mkStats (boards_completed sts) (blocks_placed sts + 1)
                       (blocks_discarded sts) (current_board_blocks sts + 1))
                    {| grid := g';
                       placed_counts :=
                         <[t := placed_count bd t + 1]> (placed_counts bd);
                       used_positions := used_positions bd ∪ {[id pos]} |}
                    scb oce rd
                    (tr ++ (Transition PLACING ::
                              (if scb
                               then [StatusCallback
                                       ("Kładę " +:+ t +:+ " na " +:+ id pos +:+ "...")
                                       sts]
                               else [])) ++
                       [PlaceBlockAt (center_col pos) (center_row pos)]))
          | Raise e => Raise e
          | Blocked => Blocked
          end
      | Raise e => Raise e
      | Blocked => Blocked
      end
    else Ok (false, mkBot sta ir ip ss sts bd scb oce rd tr).
Proof.
  unfold _place_block, on_board. run_method.
  unfold get_next_position, placed_count. run_method.
  case_bool_decide; simpl; try reflexivity.
  destruct (scan_positions bd (candidates cfg t)) as [[pos|]| |]; simpl;
    try reflexivity.
  unfold set_board. simpl. rewrite update_status_run. simpl.
  rewrite mark_position_used_eq. simpl.
  destruct (mark_cells (grid bd) (cells pos) t) as [g'| |]; simpl;
    try reflexivity.
  unfold add_placed, set_stats, set_trace, placed_count. simpl.
  by rewrite <- app_assoc.
Qed.

Lemma scan_positions_cases b ps :
  (∃ r, scan_positions b ps = Ok r) ∨ scan_positions b ps = Raise IndexError.
Proof.
  induction ps as [|p ps IH]; simpl; [eauto|].
  case_bool_decide; [done|].
  assert (Hf : (∃ f, all_free (grid b) (cells p) = Ok f) ∨
               all_free (grid b) (cells p) = Raise IndexError).
  { induction (cells p) as [|rc cs IHc]; simpl; [eauto|].
    destruct (cell_at_cases (grid b) rc) as [[[x|] ->]| ->]; simpl; eauto. }
  destruct Hf as [[[|] ->]| ->]; simpl; eauto.
Qed.

Lemma mark_cells_cases g cs T :
  (∃ g', mark_cells g cs T = Ok g') ∨ mark_cells g cs T = Raise IndexError.
Proof.
  destruct (forallb (in_grid g) cs) eqn:E.
  - destruct (mark_cells_spec g cs T E) as (g' & -> & _). eauto.
  - right. by apply mark_cells_out_of_grid.
Qed.

(** X14. [_place_block] on a board whose grid contains the candidate slots
    of the type places the block exactly when the placed count is below the
    limit and [get_next_position] offers a slot.  Then it asks the sequencer
    once, for the centre of that slot, commits that slot and adds one to
    [blocks_placed] and to [current_board_blocks].  Otherwise it returns
    [False] and changes nothing at all: no call to the sequencer, no status
    update, the same board. *)
Theorem place_block_outcome (cfg : config) (s : Bot) (T : string) :
  slots_in_grid cfg (grid (board s)) T = true →
  ∃ r,
    get_next_position cfg T (board s) = Ok (r, board s) ∧
    match r with
    | Some pos =>
        if bool_decide (placed_count (board s) T < limit_of cfg T) then
          ∃ s' b' evs,
            _place_block cfg T s = Ok (true, s') ∧
            mark_position_used T pos (board s) = Ok (tt, b') ∧
            board s' = b' ∧
            trace s' = trace s ++ evs ∧
            occurrences is_place evs = 1%nat ∧
            PlaceBlockAt (center_col pos) (center_row pos) ∈ evs ∧
            occurrences is_discard evs = 0%nat ∧
            blocks_placed (stats s') = blocks_placed (stats s) + 1 ∧
            current_board_blocks (stats s') = current_board_blocks (stats s) + 1 ∧
            blocks_discarded (stats s') = blocks_discarded (stats s) ∧
            boards_completed (stats s') = boards_completed (stats s)
        else _place_block cfg T s = Ok (false, s)
    | None => _place_block cfg T s = Ok (false, s)
    end.
Proof.
  destruct s as [sta ir ip ss sts bd scb oce rd tr]. simpl. intros Hin.
  destruct (scan_positions_spec bd _ Hin) as (r & Hr & Hspec).
  exists r. unfold get_next_position. rewrite Hr. split; [done|].
  rewrite place_block_run, Hr.
  destruct r as [pos|]; [|by case_bool_decide].
  case_bool_decide; [|done].
  destruct Hspec as (l1 & l2 & _ & _ & Hav).
  pose proof (available_in_grid _ _ Hav) as Hpos.
  rewrite mark_position_used_eq.
  destruct (mark_cells_spec (grid bd) (cells pos) T Hpos) as (g' & -> & _).
  simpl. eexists. eexists. eexists. split; [done|]. split; [done|]. simpl.
  split; [done|]. split; [done|].
  split; [by destruct scb|]. split.
  { destruct scb; simpl; repeat constructor. }
  split; [by destruct scb|]. done.
Qed.

(** ** The passes of the loop *)

Lemma complete_board_run cfg sta ir ip ss sts bd scb oce rd tr :
  _complete_board cfg (mkBot sta ir ip ss sts bd scb oce rd tr)
  = Ok (tt, mkBot COMPLETING ir ip ss
              (mkStats (boards_completed sts + 1) (blocks_placed sts)
                       (blocks_discarded sts) 0)
              (BoardState_init cfg) scb oce rd
              (tr ++ (Transition COMPLETING ::
                        (if scb then [StatusCallback "Plansza ukończona!" sts]
                         else [])) ++
                 [Sleep (Seconds 0.5); ConfirmCompletion; Sleep (Seconds 0.5)])).
Proof.
  unfold _complete_board, on_board. run_method. rewrite update_status_run. simpl.
  unfold emit, set_trace, add_completed, set_stats, set_board. run_method.
  do 3 f_equal. repeat (rewrite <- app_assoc; simpl). done.
Qed.

Lemma loop_body_cases cfg sta ir sts bd scb oce rd tr :
  (loop_body cfg (mkBot sta ir false false sts bd scb oce rd tr)
     = Raise IndexError ∧
   total (placed_counts bd) < 7 ∧
   ∃ t, first_detected (Z.to_nat (MAX_CHEST_RETRIES cfg)) rd = Some t ∧
        scan_positions bd (candidates cfg t) = Raise IndexError) ∨
  (∃ k sta' bd' sts' paused' rd' evs,
     loop_body cfg (mkBot sta ir false false sts bd scb oce rd tr)
     = Ok (Next, mkBot sta' ir paused' false sts' bd' scb oce rd' (tr ++ evs)) ∧
     pass_effect cfg k bd sts rd bd' sts' paused' evs).
Proof.
  unfold loop_body, _wait_while_paused, on_board. run_method.
  change (map_fold (λ (_ : string) (n acc : Z), acc + n) 0 (placed_counts bd))
    with (total (placed_counts bd)).
  case_bool_decide as Hc.
  { right. unfold set_board. simpl. rewrite complete_board_run. simpl.
    exists Completed. eexists. eexists. eexists. eexists. eexists. eexists.
    split; [destruct bd; reflexivity|]. simpl.
    rewrite !occurrences_app. destruct scb; simpl; by repeat split. }
  apply Z.nle_gt in Hc.
  unfold set_board. simpl.
  destruct (fetch_block_any cfg sta ir false false sts bd scb oce rd tr)
    as (sta' & rd' & evs & Hrun & F1 & F2 & F3 & F4 & F5 & F6 & Fnone & Fsome).
  rewrite Hrun. simpl.
  destruct (first_detected (Z.to_nat (MAX_CHEST_RETRIES cfg)) rd) as [t|] eqn:E;
    simpl.
  2:{ right. unfold set_is_paused. simpl. rewrite update_status_run. simpl.
      destruct (Fnone eq_refl) as [Fn _].
      exists Starved, PAUSED, bd, sts, true, rd'. eexists.
      split; [by rewrite <- app_assoc|]. simpl.
      rewrite !occurrences_app, F2, F3, F4, Fn.
      destruct scb; simpl; repeat split; try done; lia. }
  destruct Fsome as [F1' _]; [done|].
  assert (Hdiscard :
    (t = "ORANGE" ∨ ¬ placed_count bd t < limit_of cfg t ∨
     scan_positions bd (candidates cfg t) = Ok None) →
    ∃ evs',
      (_discard_block t (mkBot sta' ir false false sts bd scb oce rd' (tr ++ evs))
       ≫= (λ p : () * Bot,
             Ok (Next, set_trace (trace p.2 ++ [Sleep (Seconds 0.05)]) p.2)))
      = Ok (Next, mkBot DISCARDING ir false false
                    (mkStats (boards_completed sts) (blocks_placed sts)
                             (blocks_discarded sts + 1) (current_board_blocks sts))
                    bd scb oce rd' (tr ++ evs')) ∧
      pass_effect cfg (Discarded t) bd sts rd bd
        (mkStats (boards_completed sts) (blocks_placed sts)
                 (blocks_discarded sts + 1) (current_board_blocks sts))
        false evs').
  { intros Hwhy. rewrite discard_block_run. simpl. unfold set_trace. simpl.
    eexists. split; [by rewrite <- !app_assoc|]. simpl.
    rewrite !occurrences_app, F2, F3, F4.
    destruct scb; simpl; repeat split; try done; lia. }
  case_bool_decide as Ho.
  { right. destruct Hdiscard as (evs' & Hrun' & Heff); [by left|].
    exists (Discarded t). do 6 eexists. split; [exact Hrun'|exact Heff]. }
  fold (placed_count bd t).
  case_bool_decide as Hlim.
  2:{ right. destruct Hdiscard as (evs' & Hrun' & Heff); [right; by left|].
      exists (Discarded t). do 6 eexists. split; [exact Hrun'|exact Heff]. }
  unfold mbind at 2. unfold M_bind. simpl.
  rewrite place_block_run. rewrite bool_decide_eq_true_2 by done.
  destruct (scan_positions_cases bd (candidates cfg t)) as [[[pos|] Hscan]|Hscan];
    rewrite Hscan.
  - destruct (scan_positions_Some _ _ _ Hscan) as [_ Hav].
    pose proof (available_in_grid _ _ Hav) as Hpos.
    destruct (mark_cells_spec (grid bd) (cells pos) t Hpos) as (g' & Hm & _).
    rewrite Hm. simpl. unfold set_trace. simpl.
    right. exists (Placed t pos). do 6 eexists.
    split; [by rewrite <- !app_assoc|]. simpl.
    rewrite mark_position_used_eq, Hm. simpl.
    rewrite !occurrences_app, F2, F3, F4.
    destruct scb; simpl; repeat split; try done; lia.
  - simpl. right. destruct Hdiscard as (evs' & Hrun' & Heff); [right; by right|].
    exists (Discarded t). do 6 eexists. split; [exact Hrun'|exact Heff].
  - simpl. left. split; [done|]. split; [done|]. by exists t.
Qed.

Lemma catalog_slots_in_grid cfg g t :
  catalog_in_grid cfg g = true → slots_in_grid cfg g t = true.
Proof.
  unfold catalog_in_grid, slots_in_grid, candidates.
  rewrite bool_decide_eq_true. intros H.
  destruct (BLOCK_POSITIONS cfg !! t) as [ps|] eqn:E; simpl; [|done].
  exact (H t ps E).
Qed.

Lemma catalog_in_grid_shape cfg g g' :
  shape g = shape g' → catalog_in_grid cfg g = true → catalog_in_grid cfg g' = true.
Proof.
  unfold catalog_in_grid. rewrite !bool_decide_eq_true. intros Hs H t ps Hps.
  specialize (H t ps Hps). simpl in *.
  apply forallb_forall. intros p Hp. unfold slot_in_grid.
  rewrite <- (forallb_in_grid_shape g g') by done.
  rewrite forallb_forall in H. by apply H.
Qed.

Lemma loop_body_step cfg s :
  (is_paused s = true ∧ should_stop s = false ∧ loop_body cfg s = Blocked) ∨
  (should_stop s = true ∧ loop_body cfg s = Ok (Break, s)) ∨
  (is_paused s = false ∧ should_stop s = false ∧
   loop_body cfg s = Raise IndexError ∧
   ∃ t, scan_positions (board s) (candidates cfg t) = Raise IndexError) ∨
  (is_paused s = false ∧ should_stop s = false ∧
   ∃ k s' evs,
     loop_body cfg s = Ok (Next, s') ∧
     trace s' = trace s ++ evs ∧
     is_running s' = is_running s ∧ should_stop s' = should_stop s ∧
     status_callback s' = status_callback s ∧
     on_chest_empty s' = on_chest_empty s ∧
     pass_effect cfg k (board s) (stats s) (readings s)
       (board s') (stats s') (is_paused s') evs).
Proof.
  destruct s as [sta ir ip ss sts bd scb oce rd tr]. simpl.
  destruct ss.
  { right. left. split; [done|]. unfold loop_body, _wait_while_paused.
    run_method. by rewrite andb_false_r. }
  destruct ip.
  { left. by repeat split. }
  right. right.
  destruct (loop_body_cases cfg sta ir sts bd scb oce rd tr)
    as [(Hr & _ & t & _ & Ht)|(k & sta' & bd' & sts' & p' & rd' & evs & Hr & He)].
  - left. repeat split; try done. by exists t.
  - right. split; [done|]. split; [done|].
    exists k. eexists. exists evs. split; [exact Hr|]. simpl. by repeat split.
Qed.

(** X15. A pass of the loop by a worker that is neither paused nor stopped,
    on a board whose grid contains all slots of the catalog, does exactly
    one of four things ([pass_effect]): on a complete board it confirms
    once, resets the board and counts one board, fetching nothing; without
    a block within the retry bound it pauses and changes neither board nor
    statistics; otherwise it either places the block (type not ORANGE,
    count below the limit, slot offered: one placement, the offered slot
    committed, [blocks_placed] one higher) or discards it (one discard,
    [blocks_discarded] one higher, board unchanged).  It never does two of
    them, never raises, and never changes [is_running] or [should_stop]. *)
Theorem loop_pass_kinds (cfg : config) (s : Bot) :
  is_paused s = false →
  should_stop s = false →
  catalog_in_grid cfg (grid (board s)) = true →
  ∃ k s' evs,
    loop_body cfg s = Ok (Next, s') ∧
    trace s' = trace s ++ evs ∧
    pass_effect cfg k (board s) (stats s) (readings s)
      (board s') (stats s') (is_paused s') evs ∧
    (occurrences is_place evs + occurrences is_discard evs
     + occurrences is_confirm evs ≤ 1)%nat ∧
    is_running s' = is_running s ∧ should_stop s' = should_stop s.
Proof.
  intros Hp Hs Hin.
  destruct (loop_body_step cfg s)
    as [(H & _)|[(H & _)|[(_ & _ & _ & t & Ht)|(_ & _ & k & s' & evs & Hr & Htr & Hir & Hss & _ & _ & He)]]];
    try congruence.
  - pose proof (catalog_slots_in_grid cfg _ t Hin) as Hin'.
    destruct (scan_positions_spec (board s) _ Hin') as (r & Hr & _). congruence.
  - exists k, s', evs. repeat split; try done.
    destruct k; simpl in He; decompose [and] He; lia.
Qed.

(** ** Invariants of the loop *)

Lemma mark_position_used_Ok t pos b b' :
  mark_position_used t pos b = Ok (tt, b') →
  slot_in_grid (grid b) pos = true ∧
  shape (grid b') = shape (grid b) ∧
  b' = {| grid := grid b';
          placed_counts := <[t := placed_count b t + 1]> (placed_counts b);
          used_positions := used_positions b ∪ {[id pos]} |}.
Proof.
  intros H. destruct (slot_in_grid (grid b) pos) eqn:E.
  - destruct (mark_position_used_run t pos b E) as (g' & Hs & Hrun).
    rewrite Hrun in H. injection H as <-. by repeat split.
  - rewrite mark_position_used_eq, (mark_cells_out_of_grid _ _ _ E) in H. done.
Qed.

Lemma passes_invariant cfg (P : Bot → Prop) :
  (∀ s, P s → catalog_in_grid cfg (grid (board s)) = true) →
  (∀ s k s' evs,
     P s → is_paused s = false → should_stop s = false →
     trace s' = trace s ++ evs →
     is_running s' = is_running s → should_stop s' = should_stop s →
     pass_effect cfg k (board s) (stats s) (readings s)
       (board s') (stats s') (is_paused s') evs →
     P s') →
  ∀ n s, P s →
    main_loop_passes cfg n s = Blocked ∨
    ∃ c s', main_loop_passes cfg n s = Ok (c, s') ∧ P s'.
Proof.
  intros Hgrid Hstep. induction n as [|n IH]; intros s HP.
  - right. exists Next, s. by split.
  - cbn [main_loop_passes]. run_method.
    destruct (is_running s && negb (should_stop s)) eqn:Hgo; simpl.
    2:{ right. exists Break, s. by split. }
    destruct (loop_body_step cfg s)
      as [(_ & _ & ->)|[(_ & ->)|[(_ & _ & _ & t & Ht)|(Hp & Hs & k & s' & evs & -> & Htr & Hir & Hss & _ & _ & He)]]];
      simpl.
    + by left.
    + right. exists Break, s. by split.
    + pose proof (catalog_slots_in_grid cfg _ t (Hgrid s HP)) as Hin.
      destruct (scan_positions_spec (board s) _ Hin) as (r & Hr & _). congruence.
    + apply IH. by apply (Hstep s k s' evs).
Qed.

Lemma pass_effect_in_grid cfg k bd sts rd bd' sts' p' evs :
  catalog_in_grid cfg (empty_grid cfg) = true →
  catalog_in_grid cfg (grid bd) = true →
  pass_effect cfg k bd sts rd bd' sts' p' evs →
  catalog_in_grid cfg (grid bd') = true.
Proof.
  intros He Hb. destruct k; simpl.
  - intros (_ & -> & _). done.
  - intros (_ & _ & -> & _). done.
  - intros (_ & _ & _ & -> & _). done.
  - intros (_ & _ & _ & _ & _ & Hm & _).
    apply mark_position_used_Ok in Hm as (_ & Hs & _).
    by apply (catalog_in_grid_shape cfg (grid bd)).
Qed.

(** X16. The worker never raises: started on a board whose grid contains
    all slots of the catalog, with the empty board of the configuration
    containing them too, any number of passes of the loop either ends
    blocked in a pause or returns normally, on a board that still contains
    all slots. *)
Theorem worker_never_raises (cfg : config) (s : Bot) (n : nat) :
  catalog_in_grid cfg (empty_grid cfg) = true →
  catalog_in_grid cfg (grid (board s)) = true →
  main_loop_passes cfg n s = Blocked ∨
  ∃ c s', main_loop_passes cfg n s = Ok (c, s') ∧
    catalog_in_grid cfg (grid (board s')) = true.
Proof.
  intros He Hs.
  apply (passes_invariant cfg
           (λ s, catalog_in_grid cfg (grid (board s)) = true)); try done.
  intros s0 k s' evs HP _ _ _ _ _ Heff.
  by apply (pass_effect_in_grid cfg k _ _ _ _ _ _ _ He HP Heff).
Qed.

(** X17. The loop keeps the invariant of the data model: if, for every
    type, the placed count is the number of consumed slot identifiers of
    that type, and no identifier is shared between two types, then the same
    holds after any number of passes -- every commit the worker makes is of
    a slot that [get_next_position] has just offered. *)
Theorem worker_keeps_counts_match (cfg : config) (s : Bot) (n : nat) :
  catalog_ids_distinct cfg = true →
  catalog_in_grid cfg (empty_grid cfg) = true →
  catalog_in_grid cfg (grid (board s)) = true →
  counts_match cfg (board s) →
  main_loop_passes cfg n s = Blocked ∨
  ∃ c s', main_loop_passes cfg n s = Ok (c, s') ∧ counts_match cfg (board s').
Proof.
  intros Hd He Hs Hc.
  destruct (passes_invariant cfg
    (λ s, catalog_in_grid cfg (grid (board s)) = true ∧ counts_match cfg (board s)))
    with (n := n) (s := s) as [H|(c & s' & H & _ & H')]; try done.
  - by intros s0 [H _].
  - intros s0 k s' evs [HP Hcm] _ _ _ _ _ Heff. split.
    { by apply (pass_effect_in_grid cfg k _ _ _ _ _ _ _ He HP Heff). }
    destruct k; simpl in Heff.
    + destruct Heff as (_ & -> & _). apply counts_match_init.
    + destruct Heff as (_ & _ & -> & _). done.
    + destruct Heff as (_ & _ & _ & -> & _). done.
    + destruct Heff as (_ & _ & _ & _ & Hscan & Hm & _).
      apply scan_positions_Some in Hscan as [Hpos [Hfresh _]].
      apply mark_position_used_Ok in Hm as (_ & _ & ->).
      by apply commit_preserves_counts.
  - by left.
  - right. eauto.
Qed.

Lemma within_limits_init cfg : within_limits cfg (BoardState_init cfg).
Proof. intros T. rewrite placed_count_init. lia. Qed.

(** X18. The worker never overfills the board: if no type has more blocks
    placed than its limit and at most seven blocks are placed in all, the
    same holds after any number of passes. *)
Theorem worker_keeps_limits (cfg : config) (s : Bot) (n : nat) :
  catalog_in_grid cfg (empty_grid cfg) = true →
  catalog_in_grid cfg (grid (board s)) = true →
  within_limits cfg (board s) →
  total (placed_counts (board s)) ≤ 7 →
  main_loop_passes cfg n s = Blocked ∨
  ∃ c s', main_loop_passes cfg n s = Ok (c, s') ∧
    within_limits cfg (board s') ∧
    total (placed_counts (board s')) ≤ 7.
Proof.
  intros He Hs Hw Ht.
  destruct (passes_invariant cfg
    (λ s, catalog_in_grid cfg (grid (board s)) = true ∧
          within_limits cfg (board s) ∧ total (placed_counts (board s)) ≤ 7))
    with (n := n) (s := s) as [H|(c & s' & H & _ & H')]; try done.
  - by intros s0 [H _].
  - intros s0 k s' evs (HP & Hw0 & Ht0) _ _ _ _ _ Heff. split.
    { by apply (pass_effect_in_grid cfg k _ _ _ _ _ _ _ He HP Heff). }
    destruct k; simpl in Heff.
    + destruct Heff as (_ & -> & _). split; [apply within_limits_init|].
      simpl. unfold zero_counts. rewrite total_zero. lia.
    + destruct Heff as (_ & _ & -> & _). done.
    + destruct Heff as (_ & _ & _ & -> & _). done.
    + destruct Heff as (Hlt & _ & _ & Hlim & _ & Hm & _).
      apply mark_position_used_Ok in Hm as (_ & _ & ->). split.
      * intros T. destruct (decide (t = T)) as [<-|Hne].
        -- rewrite placed_count_insert_eq. lia.
        -- rewrite placed_count_insert_ne by done. apply Hw0.
      * simpl. unfold placed_count. rewrite total_incr. lia.
  - by left.
  - right. eauto.
Qed.

(** X19. The statistics count the actions: after any number of passes,
    [blocks_placed], [blocks_discarded] and [boards_completed] have grown by
    exactly the number of placements, discards and confirmations that the
    worker asked of the sequencer in those passes. *)
Theorem statistics_count_actions (cfg : config) (s : Bot) (n : nat) :
  catalog_in_grid cfg (empty_grid cfg) = true →
  catalog_in_grid cfg (grid (board s)) = true →
  main_loop_passes cfg n s = Blocked ∨
  ∃ c s' evs,
    main_loop_passes cfg n s = Ok (c, s') ∧
    trace s' = trace s ++ evs ∧
    blocks_placed (stats s')
      = blocks_placed (stats s) + Z.of_nat (occurrences is_place evs) ∧
    blocks_discarded (stats s')
      = blocks_discarded (stats s) + Z.of_nat (occurrences is_discard evs) ∧
    boards_completed (stats s')
      = boards_completed (stats s) + Z.of_nat (occurrences is_confirm evs).
Proof.
  intros He Hs.
  destruct (passes_invariant cfg
    (λ s1, catalog_in_grid cfg (grid (board s1)) = true ∧
       ∃ evs, trace s1 = trace s ++ evs ∧
         blocks_placed (stats s1)
           = blocks_placed (stats s) + Z.of_nat (occurrences is_place evs) ∧
         blocks_discarded (stats s1)
           = blocks_discarded (stats s) + Z.of_nat (occurrences is_discard evs) ∧
         boards_completed (stats s1)
           = boards_completed (stats s) + Z.of_nat (occurrences is_confirm evs)))
    with (n := n) (s := s) as [H|(c & s' & H & _ & evs & H')].
  - by intros s0 [H _].
  - intros s0 k s' evs2 (HP & evs1 & Htr1 & Hp1 & Hd1 & Hc1) _ _ Htr _ _ Heff.
    split.
    { by apply (pass_effect_in_grid cfg k _ _ _ _ _ _ _ He HP Heff). }
    exists (evs1 ++ evs2). split; [by rewrite Htr, Htr1, app_assoc|].
    rewrite !occurrences_app.
    destruct k; simpl in Heff; decompose [and] Heff; clear Heff;
      match goal with H : stats s' = _ |- _ => rewrite H end; simpl;
      repeat split; lia.
  - split; [done|]. exists []. rewrite app_nil_r. simpl. repeat split; lia.
  - by left.
  - right. exists c, s', evs. by split.
Qed.

(** X20. [current_board_blocks] follows the board: if it equals the total
    of the placed counts, it still does after any number of passes (each
    placement adds one to both, each completed board sets both to zero). *)
Theorem current_board_blocks_is_total (cfg : config) (s : Bot) (n : nat) :
  catalog_in_grid cfg (empty_grid cfg) = true →
  catalog_in_grid cfg (grid (board s)) = true →
  current_board_blocks (stats s) = total (placed_counts (board s)) →
  main_loop_passes cfg n s = Blocked ∨
  ∃ c s',
    main_loop_passes cfg n s = Ok (c, s') ∧
    current_board_blocks (stats s') = total (placed_counts (board s')).
Proof.
  intros He Hs Hc.
  destruct (passes_invariant cfg
    (λ s1, catalog_in_grid cfg (grid (board s1)) = true ∧
           current_board_blocks (stats s1) = total (placed_counts (board s1))))
    with (n := n) (s := s) as [H|(c & s' & H & _ & H')]; try done.
  - by intros s0 [H _].
  - intros s0 k s' evs (HP & Hc0) _ _ _ _ _ Heff. split.
    { by apply (pass_effect_in_grid cfg k _ _ _ _ _ _ _ He HP Heff). }
    destruct k; simpl in Heff.
    + destruct Heff as (_ & -> & -> & _). simpl. unfold zero_counts.
      by rewrite total_zero.
    + destruct Heff as (_ & _ & -> & -> & _). done.
    + destruct Heff as (_ & _ & _ & -> & -> & _). done.
    + destruct Heff as (_ & _ & _ & _ & _ & Hm & -> & _).
      apply mark_position_used_Ok in Hm as (_ & _ & ->). simpl.
      unfold placed_count. rewrite total_incr. lia.
  - by left.
  - right. eauto.
Qed.

(** ** The end of the loop *)

Lemma main_loop_while_running cfg fuel :
  ∀ s, is_running s = true → should_stop s = false →
    ∀ r, main_loop_while cfg fuel s ≠ Some (Ok r).
Proof.
  induction fuel as [|fuel IH]; intros s Hir Hss r; simpl;
    rewrite Hir, Hss; simpl; [done|].
  destruct (loop_body_step cfg s)
    as [(_ & _ & ->)|[(H & _)|[(_ & _ & -> & _)|(_ & _ & k & s' & evs & -> & _ & Hir' & Hss' & _)]]];
    try done; try congruence.
  apply IH; congruence.
Qed.

Lemma main_loop_while_idle cfg fuel s :
  is_running s = false ∨ should_stop s = true →
  main_loop_while cfg fuel s = Some (Ok (tt, s)).
Proof.
  intros [H|H]; destruct fuel; simpl; rewrite H; simpl;
    by rewrite ?andb_false_r.
Qed.

(** X21. The worker never leaves the [while] loop by itself: the loop
    returns normally only if [is_running] is off or [should_stop] is on
    when it is entered, and then it returns at once with the bot as it
    was.  Otherwise it keeps running, waits in a pause, or dies of an
    exception. *)
Theorem loop_ends_only_on_request (cfg : config) (fuel : nat) (s : Bot)
    (r : unit * Bot) :
  main_loop_while cfg fuel s = Some (Ok r) ↔
  (is_running s = false ∨ should_stop s = true) ∧ r = (tt, s).
Proof.
  split.
  - intros H. destruct (is_running s) eqn:Hir; destruct (should_stop s) eqn:Hss.
    + split; [by right|]. destruct fuel; simpl in H; rewrite Hir, Hss in H;
        simpl in H; congruence.
    + by destruct (main_loop_while_running cfg fuel s Hir Hss r).
    + split; [by left|]. destruct fuel; simpl in H; rewrite Hir, Hss in H;
        simpl in H; congruence.
    + split; [by left|]. destruct fuel; simpl in H; rewrite Hir, Hss in H;
        simpl in H; congruence.
  - intros [H ->]. by apply main_loop_while_idle.
Qed.

Lemma stop_run sta ir ip ss sts bd scb oce rd tr :
  stop (mkBot sta ir ip ss sts bd scb oce rd tr)
  = Ok (tt, mkBot STOPPED false false true sts bd scb oce rd
              (tr ++ Transition STOPPED ::
                 (if scb then [StatusCallback "Zatrzymano" sts] else []))).
Proof.
  unfold stop. run_method.
  unfold set_should_stop, set_is_running, set_is_paused. simpl.
  by rewrite update_status_run.
Qed.

(** X22. [stop] ends the worker without any action: it asks nothing of the
    sequencer and leaves the board and the statistics alone; afterwards a
    pass of the loop breaks at once -- even if the bot was paused -- and the
    [while] loop returns for every number of passes allowed. *)
Theorem stop_ends_the_loop (cfg : config) (s : Bot) (fuel : nat) :
  ∃ s' evs,
    stop s = Ok (tt, s') ∧
    trace s' = trace s ++ evs ∧
    occurrences is_action evs = 0%nat ∧
    state s' = STOPPED ∧ is_running s' = false ∧ is_paused s' = false ∧
    should_stop s' = true ∧
    board s' = board s ∧ stats s' = stats s ∧
    loop_body cfg s' = Ok (Break, s') ∧
    main_loop_while cfg fuel s' = Some (Ok (tt, s')).
Proof.
  destruct s as [sta ir ip ss sts bd scb oce rd tr]. rewrite stop_run.
  eexists. eexists. split; [done|]. simpl. split; [done|].
  split; [by destruct scb|]. repeat split.
  by destruct fuel.
Qed.

(** ** Pausing, resuming and starting *)

(** X23. After a pass that found the chest empty the worker waits: while the
    bot is running and not stopped, the pass after the one in which the
    detector found nothing within the retry bound blocks in
    [_wait_while_paused], so that no further fetch happens until the
    foreground resumes or stops the bot. *)
Theorem starved_worker_waits (cfg : config) (s : Bot) (n : nat) :
  is_running s = true →
  is_paused s = false →
  should_stop s = false →
  is_complete (board s) = Ok (false, board s) →
  nothing_detected (take (Z.to_nat (MAX_CHEST_RETRIES cfg)) (readings s)) = true →
  main_loop_passes cfg (S (S n)) s = Blocked.
Proof.
  destruct s as [sta ir ip ss sts bd scb oce rd tr]. simpl.
  intros -> -> -> Hc Hrd%nothing_detected_Forall.
  destruct (loop_body_starved cfg sta true sts bd scb oce rd tr Hc Hrd)
    as (evs & Hrun & _).
  cbn [main_loop_passes]. run_method. rewrite Hrun. simpl. reflexivity.
Qed.

Lemma loop_body_not_blocked cfg s :
  is_paused s = false → loop_body cfg s ≠ Blocked.
Proof.
  intros Hp.
  destruct (loop_body_step cfg s)
    as [(H & _)|[(_ & ->)|[(_ & _ & -> & _)|(_ & _ & k & s' & evs & -> & _)]]];
    try done. congruence.
Qed.

Lemma pause_run cfg scanned sta ip ss sts bd scb oce rd tr :
  pause cfg scanned (mkBot sta true ip ss sts bd scb oce rd tr)
  = Ok (tt,
        if ip then
          mkBot RUNNING true false ss sts
            (board_after (update_from_scan cfg scanned) bd) scb oce rd
            (tr ++ Transition RUNNING ::
               (if scb then [StatusCallback "Wznawiam..." sts] else []))
        else
          mkBot PAUSED true true ss sts bd scb oce rd
            (tr ++ Transition PAUSED ::
               (if scb
                then [StatusCallback "PAUZA - naciśnij HOME aby wznowić" sts]
                else []))).
Proof.
  unfold pause, _scan_and_update_board, on_board. run_method.
  unfold set_is_paused. simpl. destruct ip; simpl.
  - unfold mbind at 1. unfold M_bind. rewrite update_status_run. simpl.
    unfold board_after. rewrite update_from_scan_run.
    rewrite ?list_fmap_id. reflexivity.
  - by rewrite update_status_run.
Qed.

(** X24. [pause] toggles the pause of a running bot and does nothing to a
    bot that is not running.  Pausing only sets the flag: the board is not
    touched and the worker then waits.  Resuming clears the flag and
    rescans: the board becomes what [update_from_scan] makes of the scan,
    with the consumed set as it was.  Neither asks anything of the
    sequencer. *)
Theorem pause_toggles (cfg : config) (scanned : list (list (option string)))
    (s : Bot) :
  (is_running s = false → pause cfg scanned s = Ok (tt, s)) ∧
  (is_running s = true →
   ∃ s' evs,
     pause cfg scanned s = Ok (tt, s') ∧
     trace s' = trace s ++ evs ∧ occurrences is_action evs = 0%nat ∧
     is_paused s' = negb (is_paused s) ∧
     is_running s' = true ∧ should_stop s' = should_stop s ∧
     stats s' = stats s ∧
     used_positions (board s') = used_positions (board s) ∧
     (is_paused s = false →
        state s' = PAUSED ∧ board s' = board s ∧
        (should_stop s = false → loop_body cfg s' = Blocked)) ∧
     (is_paused s = true →
        state s' = RUNNING ∧
        update_from_scan cfg scanned (board s) = Ok (tt, board s') ∧
        loop_body cfg s' ≠ Blocked)).
Proof.
  destruct s as [sta ir ip ss sts bd scb oce rd tr]. simpl. split.
  - intros ->. reflexivity.
  - intros ->. rewrite pause_run.
    destruct ip; simpl; (eexists; eexists; split; [done|]); simpl.
    + split; [done|]. split; [by destruct scb|].
      split; [done|]. split; [done|]. split; [done|]. split; [done|].
      split; [done|].
      split; [done|]. intros _. split; [done|].
      split; [apply update_from_scan_after|].
      by apply loop_body_not_blocked.
    + split; [done|]. split; [by destruct scb|].
      split; [done|]. split; [done|]. split; [done|]. split; [done|].
      split; [done|]. split; [|done]. intros _. split; [done|].
      split; [done|]. by intros ->.
Qed.

Lemma initialize_run cfg loaded valid sta ir ip ss sts bd scb oce rd tr :
  initialize cfg loaded valid (mkBot sta ir ip ss sts bd scb oce rd tr)
  = if loaded && valid then
      Ok (true, mkBot IDLE ir ip ss sts (BoardState_init cfg) scb oce rd
                  (tr ++ Transition IDLE ::
                     (if scb then [StatusCallback "Gotowy | HOME → Start" sts]
                      else [])))
    else
      Ok (false, mkBot ERROR ir ip ss sts bd scb oce rd
                   (tr ++ Transition ERROR ::
                      (if scb
                       then [StatusCallback
                               (if loaded then "Kalibracja niepełna!"
                                else "Brak kalibracji!") sts]
                       else []))).
Proof.
  unfold initialize, on_board.
  destruct loaded, valid; simpl; run_method; rewrite ?update_status_run;
    try reflexivity.
  unfold set_board. simpl. by rewrite update_status_run.
Qed.

(** X25. [start] does nothing to a bot that is already running.  When the
    calibration cannot be loaded or is incomplete, the bot goes to [ERROR]
    and stays not running, with its board and flags as they were.
    Otherwise the bot runs, unpaused and with [should_stop] cleared, on a
    board reset to the empty one; the statistics of an earlier session are
    kept as they are. *)
Theorem start_outcome (cfg : config) (loaded valid : bool) (s : Bot) :
  (is_running s = true → start cfg loaded valid s = Ok (tt, s)) ∧
  (is_running s = false →
   ∃ s' evs,
     start cfg loaded valid s = Ok (tt, s') ∧
     trace s' = trace s ++ evs ∧ occurrences is_action evs = 0%nat ∧
     stats s' = stats s ∧
     if loaded && valid then
       is_running s' = true ∧ is_paused s' = false ∧ should_stop s' = false ∧
       state s' = IDLE ∧ board s' = BoardState_init cfg
     else
       is_running s' = false ∧ is_paused s' = is_paused s ∧
       should_stop s' = should_stop s ∧
       state s' = ERROR ∧ board s' = board s).
Proof.
  destruct s as [sta ir ip ss sts bd scb oce rd tr]. simpl. split.
  - intros ->. reflexivity.
  - intros ->. unfold start. run_method.
    unfold mbind at 1. unfold M_bind. rewrite initialize_run.
    destruct (loaded && valid); simpl.
    + eexists. eexists. split; [done|]. simpl.
      split; [done|]. split; [by destruct scb|]. done.
    + eexists. eexists. split; [done|]. simpl.
      split; [done|]. split; [by destruct scb|]. done.
Qed.


(** ** More runs on the sample configuration *)

Lemma mark_position_used_frame_witness :
  slot_in_grid (grid fresh_board) pos_R1 = true ∧
  ∃ b', mark_position_used "RED" pos_R1 fresh_board = Ok (tt, b') ∧
    (length <$> grid b') = [6; 6; 6; 6]%nat ∧
    cell_at (grid b') (2, 0) = Ok None ∧
    cell_at (grid b') (-1, -1) = Ok None.
Proof.
  split; [vm_compute; reflexivity|].
  destruct (mark_position_used_frame fresh_board "RED" pos_R1)
    as (b' & Hrun & Hshape & Hframe); [vm_compute; reflexivity|].
  exists b'. split; [exact Hrun|]. split; [rewrite Hshape; reflexivity|].
  split.
  - rewrite Hframe; [reflexivity|]. apply (bool_decide_unpack _). by vm_compute.
  - rewrite Hframe; [reflexivity|]. apply (bool_decide_unpack _). by vm_compute.
Defined.

Lemma mark_position_used_empty_count_witness :
  slot_in_grid (grid board_R1) pos_R1 = true ∧
  ∃ b' n n',
    mark_position_used "RED" pos_R1 board_R1 = Ok (tt, b') ∧
    get_empty_count board_R1 = Ok (n, board_R1) ∧
    get_empty_count b' = Ok (n', b') ∧
    n - Z.of_nat (length (cells pos_R1)) ≤ n' ≤ n.
Proof.
  split; [vm_compute; reflexivity|].
  apply (mark_position_used_empty_count board_R1 "RED" pos_R1).
  vm_compute; reflexivity.
Defined.

Lemma offered_slot_fills_its_cells_witness :
  get_next_position sample_config "RED" board_R1 = Ok (Some pos_R2, board_R1) ∧
  distinct_cells (grid board_R1) pos_R2 = true ∧
  ∃ b' n,
    mark_position_used "RED" pos_R2 board_R1 = Ok (tt, b') ∧
    get_empty_count board_R1 = Ok (n, board_R1) ∧
    get_empty_count b' = Ok (n - 4, b').
Proof.
  split; [vm_compute; reflexivity|]. split; [vm_compute; reflexivity|].
  apply (offered_slot_fills_its_cells sample_config board_R1 "RED" pos_R2);
    vm_compute; reflexivity.
Defined.

Lemma mark_position_used_total_witness :
  slot_in_grid (grid board_R1) pos_R1 = true ∧
  ∃ b' n,
    mark_position_used "CYAN" pos_R1 board_R1 = Ok (tt, b') ∧
    get_total_placed board_R1 = Ok (n, board_R1) ∧
    get_total_placed b' = Ok (n + 1, b').
Proof.
  split; [vm_compute; reflexivity|].
  apply (mark_position_used_total board_R1 "CYAN" pos_R1).
  vm_compute; reflexivity.
Defined.

Lemma update_from_scan_unknown_type_witness :
  BLOCK_LIMITS sample_config !! "PURPLE" = None ∧
  placed_counts board_purple !! "PURPLE" = Some 1 ∧
  ∃ b', update_from_scan sample_config one_green_grid board_purple = Ok (tt, b') ∧
    placed_counts b' !! "PURPLE" = Some 1.
Proof.
  split; [vm_compute; reflexivity|]. split; [vm_compute; reflexivity|].
  destruct (update_from_scan_unknown_type sample_config board_purple
              one_green_grid "PURPLE") as (b' & Hrun & Hcnt);
    [vm_compute; reflexivity|].
  exists b'. split; [exact Hrun|]. rewrite Hcnt. vm_compute; reflexivity.
Defined.

Lemma update_from_scan_rounds_up_witness :
  BLOCK_LIMITS sample_config !! "GREEN" = Some 1 ∧
  cells_labelled one_green_grid "GREEN" = 1 ∧
  ∃ b', update_from_scan sample_config one_green_grid fresh_board = Ok (tt, b') ∧
    placed_count b' "GREEN" = 1.
Proof.
  split; [vm_compute; reflexivity|]. split; [vm_compute; reflexivity|].
  destruct (update_from_scan_rounds_up sample_config fresh_board
              one_green_grid "GREEN" 1) as (b' & Hrun & _ & Hone);
    [vm_compute; reflexivity|].
  exists b'. split; [exact Hrun|].
  assert (H : 1 ≤ cells_labelled one_green_grid "GREEN") by by vm_compute.
  specialize (Hone H).
  assert (H1 : cells_labelled one_green_grid "GREEN" = 1) by (vm_compute; reflexivity).
  rewrite H1 in Hone. lia.
Defined.

Lemma never_placeable_without_limit_witness :
  run_ops sample_config sample_ops (BoardState_init sample_config)
    = Ok (tt, board_sample_ops) ∧
  limit_of sample_config "ORANGE" ≤ 0 ∧
  placed_count board_sample_ops "ORANGE" = 0 ∧
  can_place_block sample_config "ORANGE" board_sample_ops
    = Ok (false, board_sample_ops).
Proof.
  assert (Hrun : run_ops sample_config sample_ops (BoardState_init sample_config)
                 = Ok (tt, board_sample_ops)) by (vm_compute; reflexivity).
  assert (Hlim : limit_of sample_config "ORANGE" ≤ 0) by by vm_compute.
  split; [exact Hrun|]. split; [exact Hlim|]. split; [vm_compute; reflexivity|].
  exact (proj2 (never_placeable_without_limit sample_config sample_ops
                  board_sample_ops "ORANGE" Hrun Hlim)).
Defined.

Lemma next_offer_is_further_down_witness :
  get_next_position sample_config "RED" fresh_board = Ok (Some pos_R1, fresh_board) ∧
  slots_in_grid sample_config (grid fresh_board) "RED" = true ∧
  ∃ b' r l1 l2,
    mark_position_used "RED" pos_R1 fresh_board = Ok (tt, b') ∧
    get_next_position sample_config "RED" b' = Ok (r, b') ∧
    candidates sample_config "RED" = l1 ++ pos_R1 :: l2 ∧
    ∀ p, r = Some p → p ∈ l2 ∧ id p ≠ id pos_R1.
Proof.
  split; [vm_compute; reflexivity|]. split; [vm_compute; reflexivity|].
  apply (next_offer_is_further_down sample_config fresh_board "RED" pos_R1);
    vm_compute; reflexivity.
Defined.

Lemma rescan_keeps_slot_consumed_witness :
  slot_in_grid (grid fresh_board) pos_R1 = true ∧
  ∃ b', (mark_position_used "RED" pos_R1;;
         update_from_scan sample_config (empty_grid sample_config)) fresh_board
        = Ok (tt, b') ∧
    grid b' = empty_grid sample_config ∧
    id pos_R1 ∈ used_positions b' ∧
    ∀ T' r b'', get_next_position sample_config T' b' = Ok (Some r, b'') →
      id r ≠ id pos_R1.
Proof.
  split; [vm_compute; reflexivity|].
  apply (rescan_keeps_slot_consumed sample_config fresh_board "RED" pos_R1
           (empty_grid sample_config)).
  vm_compute; reflexivity.
Defined.

Lemma get_next_position_off_grid_witness :
  candidates sample_config "RED" = [] ++ pos_R1 :: [pos_R2] ∧
  cells pos_R1 = (0, 0) :: [(0, 1); (1, 0); (1, 1)] ∧
  grid board_no_rows = [] ∧
  in_grid (grid board_no_rows) (0, 0) = false ∧
  get_next_position sample_config "RED" board_no_rows = Raise IndexError.
Proof.
  split; [vm_compute; reflexivity|]. split; [vm_compute; reflexivity|].
  split; [vm_compute; reflexivity|]. split; [vm_compute; reflexivity|].
  apply (get_next_position_off_grid sample_config board_no_rows "RED"
           [] [pos_R2] pos_R1 (0, 0) [(0, 1); (1, 0); (1, 1)]);
    vm_compute; reflexivity.
Defined.

Lemma place_block_outcome_witness :
  let s := sample_bot true [] in
  slots_in_grid sample_config (grid (board s)) "RED" = true ∧
  ∃ s', _place_block sample_config "RED" s = Ok (true, s') ∧
    mark_position_used "RED" pos_R1 (board s) = Ok (tt, board s') ∧
    blocks_placed (stats s') = 1.
Proof.
  intros s. split; [vm_compute; reflexivity|].
  destruct (place_block_outcome sample_config s "RED") as (r & Hr & Hcase);
    [vm_compute; reflexivity|].
  assert (r = Some pos_R1) as ->.
  { assert (H : get_next_position sample_config "RED" (board s)
                = Ok (Some pos_R1, board s)) by (vm_compute; reflexivity).
    congruence. }
  rewrite bool_decide_eq_true_2 in Hcase by by vm_compute.
  destruct Hcase as (s' & b' & evs & Hrun & Hm & Hb & _ & _ & _ & _ & Hp & _).
  exists s'. split; [exact Hrun|]. split; [by rewrite Hb|].
  rewrite Hp. reflexivity.
Defined.

Lemma loop_pass_kinds_witness :
  let s := sample_bot true [None; Some "RED"] in
  is_paused s = false ∧ should_stop s = false ∧
  catalog_in_grid sample_config (grid (board s)) = true ∧
  ∃ k s' evs,
    loop_body sample_config s = Ok (Next, s') ∧
    trace s' = trace s ++ evs ∧
    pass_effect sample_config k (board s) (stats s) (readings s)
      (board s') (stats s') (is_paused s') evs ∧
    (occurrences is_place evs + occurrences is_discard evs
     + occurrences is_confirm evs ≤ 1)%nat ∧
    is_running s' = is_running s ∧ should_stop s' = should_stop s.
Proof.
  intros s. split; [reflexivity|]. split; [reflexivity|].
  split; [vm_compute; reflexivity|].
  apply (loop_pass_kinds sample_config s); vm_compute; reflexivity.
Defined.

Lemma worker_never_raises_witness :
  let s := sample_bot true [Some "RED"; Some "ORANGE"; Some "RED"; Some "RED"] in
  catalog_in_grid sample_config (empty_grid sample_config) = true ∧
  catalog_in_grid sample_config (grid (board s)) = true ∧
  (main_loop_passes sample_config 4 s = Blocked ∨
   ∃ c s', main_loop_passes sample_config 4 s = Ok (c, s') ∧
     catalog_in_grid sample_config (grid (board s')) = true).
Proof.
  intros s. split; [vm_compute; reflexivity|]. split; [vm_compute; reflexivity|].
  apply (worker_never_raises sample_config s 4); vm_compute; reflexivity.
Defined.

Lemma worker_keeps_counts_match_witness :
  let s := sample_bot true [Some "RED"; Some "ORANGE"; Some "RED"; Some "RED"] in
  catalog_ids_distinct sample_config = true ∧
  catalog_in_grid sample_config (empty_grid sample_config) = true ∧
  catalog_in_grid sample_config (grid (board s)) = true ∧
  (main_loop_passes sample_config 4 s = Blocked ∨
   ∃ c s', main_loop_passes sample_config 4 s = Ok (c, s') ∧
     counts_match sample_config (board s')).
Proof.
  intros s. split; [vm_compute; reflexivity|]. split; [vm_compute; reflexivity|].
  split; [vm_compute; reflexivity|].
  apply (worker_keeps_counts_match sample_config s 4);
    try (vm_compute; reflexivity).
  apply counts_match_init.
Defined.

Lemma worker_keeps_limits_witness :
  let s := sample_bot true [Some "RED"; Some "ORANGE"; Some "RED"; Some "RED"] in
  catalog_in_grid sample_config (empty_grid sample_config) = true ∧
  catalog_in_grid sample_config (grid (board s)) = true ∧
  total (placed_counts (board s)) ≤ 7 ∧
  (main_loop_passes sample_config 4 s = Blocked ∨
   ∃ c s', main_loop_passes sample_config 4 s = Ok (c, s') ∧
     within_limits sample_config (board s') ∧
     total (placed_counts (board s')) ≤ 7).
Proof.
  intros s.
  assert (Ht : total (placed_counts (board s)) ≤ 7) by by vm_compute.
  split; [vm_compute; reflexivity|]. split; [vm_compute; reflexivity|].
  split; [exact Ht|].
  apply (worker_keeps_limits sample_config s 4);
    try (vm_compute; reflexivity); [|exact Ht].
  apply within_limits_init.
Defined.

Lemma statistics_count_actions_witness :
  let s := sample_bot true [Some "RED"; Some "ORANGE"; Some "RED"; Some "RED"] in
  catalog_in_grid sample_config (empty_grid sample_config) = true ∧
  catalog_in_grid sample_config (grid (board s)) = true ∧
  (main_loop_passes sample_config 4 s = Blocked ∨
   ∃ c s' evs,
     main_loop_passes sample_config 4 s = Ok (c, s') ∧
     trace s' = trace s ++ evs ∧
     blocks_placed (stats s')
       = blocks_placed (stats s) + Z.of_nat (occurrences is_place evs) ∧
     blocks_discarded (stats s')
       = blocks_discarded (stats s) + Z.of_nat (occurrences is_discard evs) ∧
     boards_completed (stats s')
       = boards_completed (stats s) + Z.of_nat (occurrences is_confirm evs)).
Proof.
  intros s. split; [vm_compute; reflexivity|]. split; [vm_compute; reflexivity|].
  apply (statistics_count_actions sample_config s 4); vm_compute; reflexivity.
Defined.

Lemma current_board_blocks_is_total_witness :
  let s := sample_bot true [Some "RED"; Some "ORANGE"; Some "RED"; Some "RED"] in
  catalog_in_grid sample_config (empty_grid sample_config) = true ∧
  catalog_in_grid sample_config (grid (board s)) = true ∧
  current_board_blocks (stats s) = total (placed_counts (board s)) ∧
  (main_loop_passes sample_config 4 s = Blocked ∨
   ∃ c s',
     main_loop_passes sample_config 4 s = Ok (c, s') ∧
     current_board_blocks (stats s') = total (placed_counts (board s'))).
Proof.
  intros s. split; [vm_compute; reflexivity|]. split; [vm_compute; reflexivity|].
  split; [vm_compute; reflexivity|].
  apply (current_board_blocks_is_total sample_config s 4); vm_compute; reflexivity.
Defined.

Lemma starved_worker_waits_witness :
  let s := sample_bot true [None; None; None; Some "RED"] in
  is_running s = true ∧ is_paused s = false ∧ should_stop s = false ∧
  is_complete (board s) = Ok (false, board s) ∧
  nothing_detected (take (Z.to_nat (MAX_CHEST_RETRIES sample_config)) (readings s))
    = true ∧
  main_loop_passes sample_config 2 s = Blocked.
Proof.
  intros s. split; [reflexivity|]. split; [reflexivity|]. split; [reflexivity|].
  split; [vm_compute; reflexivity|]. split; [vm_compute; reflexivity|].
  apply (starved_worker_waits sample_config s 0); vm_compute; reflexivity.
Defined.

Lemma pause_toggles_witness :
  let s := set_is_paused true (sample_bot true [Some "RED"]) in
  is_running s = true ∧ is_paused s = true ∧
  ∃ s' evs,
    pause sample_config one_green_grid s = Ok (tt, s') ∧
    trace s' = trace s ++ evs ∧ occurrences is_action evs = 0%nat ∧
    is_paused s' = false ∧
    state s' = RUNNING ∧
    update_from_scan sample_config one_green_grid (board s) = Ok (tt, board s') ∧
    loop_body sample_config s' ≠ Blocked.
Proof.
  intros s. split; [reflexivity|]. split; [reflexivity|].
  destruct (proj2 (pause_toggles sample_config one_green_grid s) eq_refl)
    as (s' & evs & Hrun & Htr & Hact & Hp & _ & _ & _ & _ & _ & Hres).
  destruct (Hres eq_refl) as (Hst & Hscan & Hnb).
  exists s', evs. split; [exact Hrun|]. split; [exact Htr|].
  split; [exact Hact|]. split; [exact Hp|]. split; [exact Hst|].
  split; [exact Hscan|exact Hnb].
Defined.

Lemma start_outcome_witness :
  let s := BotLogic_init sample_config true [Some "RED"] in
  is_running s = false ∧
  (∃ s' evs,
     start sample_config true true s = Ok (tt, s') ∧
     trace s' = trace s ++ evs ∧ occurrences is_action evs = 0%nat ∧
     stats s' = stats s ∧
     is_running s' = true ∧ is_paused s' = false ∧ should_stop s' = false ∧
     state s' = IDLE ∧ board s' = BoardState_init sample_config) ∧
  (∃ s' evs,
     start sample_config true false s = Ok (tt, s') ∧
     trace s' = trace s ++ evs ∧ occurrences is_action evs = 0%nat ∧
     stats s' = stats s ∧
     is_running s' = false ∧ is_paused s' = is_paused s ∧
     should_stop s' = should_stop s ∧
     state s' = ERROR ∧ board s' = board s).
Proof.
  intros s. split; [reflexivity|]. split.
  - exact (proj2 (start_outcome sample_config true true s) eq_refl).
  - exact (proj2 (start_outcome sample_config true false s) eq_refl).
Defined.

